(** * File synchronisation service: the reconciliation engine of [api/api.py]

    A shallow embedding of [api/api.py] (path helpers, fingerprinting, the
    [YandexDiskAPI] class) and of the caller contract of [main.py].

    Conventions of the embedding.
    - Python [str] is [string]; [bytes] is [list byte].
    - [os.path] is [posixpath]: the separator is [/] and a backslash is an
      ordinary character of a name.
    - A dict is a [gmap], a Python [set] is a [gset].
    - The local tree is a snapshot ([node]); local paths are the lists of
      names below the synchronised folder.
    - [hashlib.md5] is the digest of RFC 1321, behind the interface of a
      hash object.
    - The cloud is a deterministic machine answering requests with an
      HTTP status and a body; every request gets an answer.
    - Coroutines are linearised: awaited calls run in program order and the
      queued upload tasks run where [sync_folder] gathers them. *)

From Stdlib Require Import ZArith Lia Ascii String List Bool.
From Stdlib Require Import Init.Byte.
From stdpp Require Import base option list gmap strings sets.

Local Open Scope string_scope.
Local Open Scope list_scope.

(** ** Python string methods used by the program *)

Module PyStr.

(** [s.split(sep)] for a one-character separator. *)
Fixpoint split (sep : ascii) (s : string) : list string :=
  match s with
  | EmptyString => [EmptyString]
  | String c s' =>
      if Ascii.eqb c sep then EmptyString :: split sep s'
      else match split sep s' with
           | [] => [String c EmptyString]
           | p :: ps => String c p :: ps
           end
  end.

(** [sep.join(parts)]. *)
Fixpoint join (sep : string) (parts : list string) : string :=
  match parts with
  | [] => EmptyString
  | [p] => p
  | p :: ps => p +:+ sep +:+ join sep ps
  end.

(** [s.startswith(p)]. *)
Fixpoint startswith (p s : string) : bool :=
  match p, s with
  | EmptyString, _ => true
  | String a p', String b s' => Ascii.eqb a b && startswith p' s'
  | String _ _, EmptyString => false
  end.

(** [c in s] for a one-character string [c]. *)
Fixpoint contains (c : ascii) (s : string) : bool :=
  match s with
  | EmptyString => false
  | String a s' => Ascii.eqb a c || contains c s'
  end.

(** [s.replace(a, b)] for one-character strings. *)
Fixpoint replace (a b : ascii) (s : string) : string :=
  match s with
  | EmptyString => EmptyString
  | String c s' => String (if Ascii.eqb c a then b else c) (replace a b s')
  end.

(** [s.lstrip(c)], [s.rstrip(c)] and [s.strip(c)] for a one-character [c]. *)
Fixpoint lstrip (c : ascii) (s : string) : string :=
  match s with
  | EmptyString => EmptyString
  | String a s' => if Ascii.eqb a c then lstrip c s' else s
  end.

Fixpoint rstrip (c : ascii) (s : string) : string :=
  match s with
  | EmptyString => EmptyString
  | String a s' =>
      match rstrip c s' with
      | EmptyString => if Ascii.eqb a c then EmptyString else String a EmptyString
      | r => String a r
      end
  end.

Definition strip (c : ascii) (s : string) : string := rstrip c (lstrip c s).

(** The part of [s] before its first [c]. *)
Fixpoint before (c : ascii) (s : string) : string :=
  match s with
  | EmptyString => EmptyString
  | String a s' => if Ascii.eqb a c then EmptyString else String a (before c s')
  end.

(** Truth value of a string: the empty string is false. *)
Definition truthy (s : string) : bool :=
  match s with EmptyString => false | _ => true end.

Definition eqb (a b : string) : bool := String.eqb a b.

End PyStr.

(** ** [posixpath.normpath] *)

Module PosixPath.

Definition sep : ascii := "/"%char.

(** The number of leading slashes that survive: POSIX keeps exactly two
    leading slashes and turns three or more into one. *)
Definition initial_slashes (path : string) : nat :=
  if PyStr.startswith "/" path then
    if PyStr.startswith "//" path && negb (PyStr.startswith "///" path)
    then 2 else 1
  else 0.

(** One turn of the loop over the components. [new_comps] is kept with
    its last element first, so [append] is a cons and [pop] a tail. *)
Definition norm_step (slashes : nat) (new_comps : list string) (comp : string)
  : list string :=
  if PyStr.eqb comp "" || PyStr.eqb comp "." then new_comps
  else if negb (PyStr.eqb comp "..")
          || (Nat.eqb slashes 0 && match new_comps with [] => true | _ => false end)
          || match new_comps with top :: _ => PyStr.eqb top ".." | [] => false end
       then comp :: new_comps
       else match new_comps with
            | _ :: rest => rest
            | [] => []
            end.

Definition slashes_prefix (n : nat) : string :=
  match n with 0 => "" | 1 => "/" | _ => "//" end.

Definition normpath (path : string) : string :=
  if PyStr.eqb path "" then "."
  else
    let slashes := initial_slashes path in
    let comps := PyStr.split sep path in
    let new_comps := fold_left (norm_step slashes) comps [] in
    let joined := slashes_prefix slashes +:+ PyStr.join "/" (rev new_comps) in
    if PyStr.truthy joined then joined else ".".

(** *** The shape of a normalised path

    A component is clean when it is not empty, is not a dot and holds no
    slash. A stack of components (last one first) is normal when its
    components are clean and its parent references sit at the bottom, with
    none at all under leading slashes. *)

Definition clean (c : string) : bool :=
  negb (PyStr.eqb c "") && negb (PyStr.eqb c ".") && negb (PyStr.contains "/"%char c).

Definition is_parent (c : string) : bool := PyStr.eqb c "..".

Fixpoint parents_at_bottom (slashes : nat) (stack : list string) : bool :=
  match stack with
  | [] => true
  | c :: below =>
      if is_parent c then Nat.eqb slashes 0 && forallb is_parent below
      else parents_at_bottom slashes below
  end.

Definition normal (slashes : nat) (stack : list string) : bool :=
  forallb clean stack && parents_at_bottom slashes stack.

End PosixPath.

(** ** Module-level helpers of [api.py] *)

Definition backslash : ascii := "\"%char.

(** [sanitize_path]: [str(os.path.normpath(path).replace("\\", "/"))]. *)
Definition sanitize_path (path : string) : string :=
  PyStr.replace backslash "/"%char (PosixPath.normpath path).

(** [validate_path]: no part starts with [.], [_] or [venv], and the path
    holds no [&]. *)
Definition bad_part (part : string) : bool :=
  PyStr.startswith "." part || PyStr.startswith "_" part
  || PyStr.startswith "venv" part.

Definition validate_path (path : string) : bool :=
  if negb (existsb bad_part (PyStr.split "/"%char path))
     && negb (PyStr.contains "&"%char path)
  then true else false.


(** ** The local file system *)

(** A snapshot of the tree below the synchronised folder. A file whose
    content is [None] cannot be read (permission denied, I/O error). *)
#[local] Unset Elimination Schemes.
Inductive node : Type :=
| File (content : option (list byte))
| Dir (entries : list (string * node)).
#[local] Set Elimination Schemes.

Module Os.

(** A name as a directory listing gives it: not empty, not a dot, not two
    dots, and without a slash. *)
Definition name_ok (name : string) : bool :=
  PosixPath.clean name && negb (PosixPath.is_parent name).

(** Every name in the tree is such a name. *)
Fixpoint well_formed (n : node) : bool :=
  match n with
  | File _ => true
  | Dir es =>
      (fix all (l : list (string * node)) : bool :=
         match l with
         | [] => true
         | (name, child) :: l' => name_ok name && well_formed child && all l'
         end) es
  end.

Fixpoint lookup_entry (name : string) (es : list (string * node)) : option node :=
  match es with
  | [] => None
  | (n, x) :: es' => if PyStr.eqb n name then Some x else lookup_entry name es'
  end.

(** The node a local path names, if any. *)
Fixpoint resolve (fs : node) (path : list string) : option node :=
  match path with
  | [] => Some fs
  | name :: rest =>
      match fs with
      | Dir es =>
          match lookup_entry name es with
          | Some child => resolve child rest
          | None => None
          end
      | File _ => None
      end
  end.

(** [os.listdir(path)] on the snapshot: the names in a directory, and
    [None] for a path that names no directory. Every directory of a
    snapshot can be listed: what [os.listdir] raises on a regular file
    ([NotADirectoryError]) or on a directory that cannot be read
    ([PermissionError]) is not modelled, and the theorems on the outcome
    of a listing, of [sync_directory] or of a pass assume listings that
    succeed. *)
Definition listdir (fs : node) (path : list string) : option (list string) :=
  match resolve fs path with
  | Some (Dir es) => Some (map fst es)
  | _ => None
  end.

(** [os.path.isfile(path)]. *)
Definition isfile (fs : node) (path : list string) : bool :=
  match resolve fs path with
  | Some (File _) => true
  | _ => false
  end.

(** [os.path.exists(path)]. *)
Definition exists_ (fs : option node) : bool :=
  match fs with Some _ => true | None => false end.

(** [open(path, 'rb')] followed by reading to the end; [None] stands for
    the exception raised by [open] or [read]. *)
Definition read_bytes (fs : node) (path : list string) : option (list byte) :=
  match resolve fs path with
  | Some (File (Some data)) => Some data
  | _ => None
  end.

Definition is_dir (n : node) : bool :=
  match n with Dir _ => true | File _ => false end.

(** [os.walk(top)], top-down: one triple [(root, dirs, files)] per
    directory, [root] being the path of the directory below [top]. *)
Fixpoint walk (root : list string) (n : node) {struct n}
  : list (list string * list string * list string) :=
  match n with
  | File _ => []
  | Dir es =>
      (root,
       map fst (List.filter (fun e => is_dir (snd e)) es),
       map fst (List.filter (fun e => negb (is_dir (snd e))) es))
      :: (fix descend (l : list (string * node)) :=
            match l with
            | [] => []
            | (name, child) :: l' => walk (root ++ [name]) child ++ descend l'
            end) es
  end.

(** [os.path.relpath(root, top)] for a [root] that [os.walk(top)] yields. *)
Definition relpath (root : list string) : string :=
  match root with
  | [] => "."
  | _ => PyStr.join "/" root
  end.

End Os.

(** ** The interface of a hash object *)

(** What [get_file_hash] needs of [hashlib]: a state fed block by block. *)
Record hashlib : Type := Hashlib {
  md5_state : Type;
  md5_new : md5_state;
  md5_update : md5_state -> list byte -> md5_state;
  md5_hexdigest : md5_state -> string
}.

(** ** [hashlib.md5]: the MD5 digest of RFC 1321 *)

Module Md5.

Local Open Scope Z_scope.

Definition mask32 : Z := 0xffffffff.
Definition add32 (a b : Z) : Z := Z.land (a + b) mask32.
Definition not32 (a : Z) : Z := Z.lxor a mask32.
Definition rotl32 (x n : Z) : Z :=
  Z.land (Z.lor (Z.shiftl x n) (Z.shiftr x (32 - n))) mask32.

(** The shift of each of the 64 steps. *)
Definition shifts : list Z :=
  [7; 12; 17; 22; 7; 12; 17; 22; 7; 12; 17; 22; 7; 12; 17; 22;
   5; 9; 14; 20; 5; 9; 14; 20; 5; 9; 14; 20; 5; 9; 14; 20;
   4; 11; 16; 23; 4; 11; 16; 23; 4; 11; 16; 23; 4; 11; 16; 23;
   6; 10; 15; 21; 6; 10; 15; 21; 6; 10; 15; 21; 6; 10; 15; 21].

(** The integer part of [2^32 * abs (sin (i + 1))] for each step [i]. *)
Definition sines : list Z :=
  [
   0xd76aa478; 0xe8c7b756; 0x242070db; 0xc1bdceee;
   0xf57c0faf; 0x4787c62a; 0xa8304613; 0xfd469501;
   0x698098d8; 0x8b44f7af; 0xffff5bb1; 0x895cd7be;
   0x6b901122; 0xfd987193; 0xa679438e; 0x49b40821;
   0xf61e2562; 0xc040b340; 0x265e5a51; 0xe9b6c7aa;
   0xd62f105d; 0x02441453; 0xd8a1e681; 0xe7d3fbc8;
   0x21e1cde6; 0xc33707d6; 0xf4d50d87; 0x455a14ed;
   0xa9e3e905; 0xfcefa3f8; 0x676f02d9; 0x8d2a4c8a;
   0xfffa3942; 0x8771f681; 0x6d9d6122; 0xfde5380c;
   0xa4beea44; 0x4bdecfa9; 0xf6bb4b60; 0xbebfbc70;
   0x289b7ec6; 0xeaa127fa; 0xd4ef3085; 0x04881d05;
   0xd9d4d039; 0xe6db99e5; 0x1fa27cf8; 0xc4ac5665;
   0xf4292244; 0x432aff97; 0xab9423a7; 0xfc93a039;
   0x655b59c3; 0x8f0ccc92; 0xffeff47d; 0x85845dd1;
   0x6fa87e4f; 0xfe2ce6e0; 0xa3014314; 0x4e0811a1;
   0xf7537e82; 0xbd3af235; 0x2ad7d2bb; 0xeb86d391].

Definition step (words : list Z) (st : Z * Z * Z * Z) (i : nat) : Z * Z * Z * Z :=
  let '(a, b, c, d) := st in
  let iz := Z.of_nat i in
  let '(f, g) :=
    if iz <? 16 then (Z.lor (Z.land b c) (Z.land (not32 b) d), iz)
    else if iz <? 32 then (Z.lor (Z.land d b) (Z.land (not32 d) c), (5 * iz + 1) mod 16)
    else if iz <? 48 then (Z.lxor (Z.lxor b c) d, (3 * iz + 5) mod 16)
    else (Z.lxor c (Z.lor b (not32 d)), (7 * iz) mod 16) in
  let f' := add32 (add32 (add32 f a) (nth i sines 0)) (nth (Z.to_nat g) words 0) in
  (d, add32 b (rotl32 f' (nth i shifts 0)), b, c).

Definition block (h : Z * Z * Z * Z) (words : list Z) : Z * Z * Z * Z :=
  let '(a0, b0, c0, d0) := h in
  let '(a, b, c, d) := fold_left (step words) (seq 0 64) h in
  (add32 a0 a, add32 b0 b, add32 c0 c, add32 d0 d).

Definition byte_to_Z (b : byte) : Z := Z.of_N (Byte.to_N b).

(** Little-endian words of a run of bytes, four bytes to a word. *)
Fixpoint le_words (fuel : nat) (bytes : list Z) : list Z :=
  match fuel, bytes with
  | S fuel', b0 :: b1 :: b2 :: b3 :: rest =>
      (b0 + Z.shiftl b1 8 + Z.shiftl b2 16 + Z.shiftl b3 24) :: le_words fuel' rest
  | _, _ => []
  end.

(** The bytes of [n], least significant first, [count] of them. *)
Fixpoint le_bytes (count : nat) (n : Z) : list Z :=
  match count with
  | O => []
  | S count' => Z.land n 0xff :: le_bytes count' (Z.shiftr n 8)
  end.

(** The message with its padding: a one bit, zeros up to 56 modulo 64,
    and the length in bits on eight bytes. *)
Definition pad (message : list Z) : list Z :=
  let len := Z.of_nat (length message) in
  message ++ [0x80] ++ repeat 0 (Z.to_nat ((55 - len) mod 64)) ++ le_bytes 8 (8 * len).

Fixpoint blocks (fuel : nat) (h : Z * Z * Z * Z) (words : list Z) : Z * Z * Z * Z :=
  match fuel, words with
  | S fuel', _ :: _ => blocks fuel' (block h (firstn 16 words)) (skipn 16 words)
  | _, _ => h
  end.

Definition hex_digit (n : Z) : ascii :=
  nth (Z.to_nat n)
    ["0"; "1"; "2"; "3"; "4"; "5"; "6"; "7"; "8"; "9"; "a"; "b"; "c"; "d"; "e"; "f"]%char
    "0"%char.

Fixpoint hex (bytes : list Z) : string :=
  match bytes with
  | [] => EmptyString
  | b :: rest => String (hex_digit (Z.shiftr b 4)) (String (hex_digit (Z.land b 0xf)) (hex rest))
  end.

Definition hexdigest (message : list byte) : string :=
  let padded := pad (map byte_to_Z message) in
  let words := le_words (length padded) padded in
  let '(a, b, c, d) :=
    blocks (length words) (0x67452301, 0xefcdab89, 0x98badcfe, 0x10325476) words in
  hex (le_bytes 4 a ++ le_bytes 4 b ++ le_bytes 4 c ++ le_bytes 4 d).

(** The hash object: it keeps what [update] fed it. *)
Definition lib : hashlib :=
  {| md5_state := list byte;
     md5_new := [];
     md5_update := fun h chunk => h ++ chunk;
     md5_hexdigest := hexdigest |}.

End Md5.

(** ** The cloud's REST interface *)

Inductive request : Type :=
| PutResource (path : string)
| GetResource (path : string)
| GetUploadLink (path : string)
| PutContent (href : string) (data : list byte)
| DeleteResource (path : string).

(** One element of [_embedded.items]. *)
Record item : Type := Item {
  item_name : string;
  item_md5 : option string;
  item_type : option string
}.

Record response : Type := Response {
  status : Z;
  items : list item;
  href : option string
}.

(** The cloud: a state and the answer it gives to each request. *)
Record cloud_api : Type := CloudApi {
  cloud_state : Type;
  serve : request -> cloud_state -> response * cloud_state
}.

(** ** Operations on the remote store, as the engine calls them *)

Inductive op : Type :=
| CreateFolder (path : option string)
| GetInfo (remote_dir_path : string)
| Upload (file_path : list string) (remote_path : string)
| Delete (remote_path_to_file : string).

Inductive exn : Type :=
| FileNotFoundError (what : string)
| OSError (file_path : list string).

Inductive result (A : Type) : Type :=
| Returned (a : A)
| Raised (e : exn).
Arguments Returned {A} a.
Arguments Raised {A} e.

(** The instance attributes of [YandexDiskAPI] that the engine reads. *)
Record YandexDiskAPI : Type := mkAPI {
  token : string;
  folder : string;
  max_concurrent_requests : nat
}.

(** [YandexDiskAPI.__init__]. *)
Definition init (token folder : string) (max_concurrent_requests : nat)
  : YandexDiskAPI :=
  {| token := token;
     folder := sanitize_path (PyStr.rstrip "/"%char folder);
     max_concurrent_requests := max_concurrent_requests |}.

Definition opt_truthy (s : option string) : bool :=
  match s with Some x => PyStr.truthy x | None => false end.

(** [YandexDiskAPI.get_full_path]. *)
Definition get_full_path (self : YandexDiskAPI)
  (remote_path filename : option string) : string :=
  match remote_path, filename with
  | Some rp, Some fn =>
      if PyStr.truthy rp && PyStr.truthy fn then
        sanitize_path (PyStr.strip "/"%char (folder self +:+ "/" +:+ rp +:+ "/" +:+ fn))
      else if PyStr.truthy fn then
        sanitize_path (PyStr.strip "/"%char (folder self +:+ "/" +:+ fn))
      else if PyStr.truthy rp then
        sanitize_path (PyStr.strip "/"%char (folder self +:+ "/" +:+ rp))
      else folder self
  | None, Some fn =>
      if PyStr.truthy fn then
        sanitize_path (PyStr.strip "/"%char (folder self +:+ "/" +:+ fn))
      else folder self
  | Some rp, None =>
      if PyStr.truthy rp then
        sanitize_path (PyStr.strip "/"%char (folder self +:+ "/" +:+ rp))
      else folder self
  | None, None => folder self
  end.

(** [local_hash != cloud_hash] on values that are a string or [None]. *)
Definition py_ne (a b : option string) : bool :=
  match a, b with
  | Some x, Some y => negb (PyStr.eqb x y)
  | None, None => false
  | _, _ => true
  end.

(** The dict that [get_info] builds: the names of the items of type
    [file] with their [md5]; a later item replaces an earlier one of the
    same name. *)
Definition cloud_files_of (its : list item) : gmap string (option string) :=
  fold_left
    (fun m it =>
       if bool_decide (item_type it = Some "file")
       then <[item_name it := item_md5 it]> m else m)
    its ∅.

(** [cloud_files.get(name)]. *)
Definition dict_get (m : gmap string (option string)) (name : string)
  : option string :=
  match m !! name with
  | Some v => v
  | None => None
  end.

Definition status_in (s : Z) (l : list Z) : bool := existsb (Z.eqb s) l.

Definition CHUNK : nat := Z.to_nat 8192.

(** ** The engine *)

Section Engine.

Variable H : hashlib.
Variable C : cloud_api.

(** The state of the process and of the cloud. [first_run] is the class
    attribute [YandexDiskAPI.first_run], shared by every instance;
    [upload_tasks] is the list object that the running [sync_folder]
    created and hands to each [sync_directory]; [trace] records the
    operations in the order they were called. *)
Record world : Type := World {
  first_run : bool;
  cloud : cloud_state C;
  upload_tasks : list (list string * string);
  trace : list op
}.

Definition M (A : Type) : Type := world -> result A * world.

Definition ret {A} (a : A) : M A := fun w => (Returned a, w).

Definition bind {A B} (m : M A) (k : A -> M B) : M B :=
  fun w =>
    match m w with
    | (Returned a, w') => k a w'
    | (Raised e, w') => (Raised e, w')
    end.

Definition raise {A} (e : exn) : M A := fun w => (Raised e, w).

(** [try: body except FileNotFoundError: handler]. *)
Definition try_except_FileNotFoundError {A} (body : M A) (handler : string -> M A)
  : M A :=
  fun w =>
    match body w with
    | (Raised (FileNotFoundError what), w') => handler what w'
    | r => r
    end.

Notation "x <- m ;; k" := (bind m (fun x => k))
  (at level 100, m at next level, right associativity).
Notation "m ;;; k" := (bind m (fun _ => k))
  (at level 100, right associativity).

(** A [for] loop with an effectful body. *)
Fixpoint for_each {A} (l : list A) (body : A -> M unit) : M unit :=
  match l with
  | [] => ret tt
  | x :: l' => body x ;;; for_each l' body
  end.

Definition log (o : op) : M unit :=
  fun w => (Returned tt,
            {| first_run := first_run w; cloud := cloud w;
               upload_tasks := upload_tasks w; trace := trace w ++ [o] |}).

(** One HTTP exchange on the session. *)
Definition send (r : request) : M response :=
  fun w =>
    let (resp, c') := serve C r (cloud w) in
    (Returned resp,
     {| first_run := first_run w; cloud := c';
        upload_tasks := upload_tasks w; trace := trace w |}).

Definition read_first_run : M bool := fun w => (Returned (first_run w), w).

Definition write_first_run (b : bool) : M unit :=
  fun w => (Returned tt,
            {| first_run := b; cloud := cloud w;
               upload_tasks := upload_tasks w; trace := trace w |}).

Definition read_upload_tasks : M (list (list string * string)) :=
  fun w => (Returned (upload_tasks w), w).

Definition write_upload_tasks (l : list (list string * string)) : M unit :=
  fun w => (Returned tt,
            {| first_run := first_run w; cloud := cloud w;
               upload_tasks := l; trace := trace w |}).

(** [upload_tasks.append(asyncio.create_task(self.upload(...)))]. *)
Definition append_upload_task (t : list string * string) : M unit :=
  l <- read_upload_tasks ;; write_upload_tasks (l ++ [t]).

(** The loop of [get_file_hash]: [while chunk := f.read(8192)]. *)
Fixpoint read_chunks (fuel : nat) (data : list byte) (h : md5_state H)
  : md5_state H :=
  match fuel with
  | 0 => h
  | S fuel' =>
      match firstn CHUNK data with
      | [] => h
      | chunk => read_chunks fuel' (skipn CHUNK data) (md5_update H h chunk)
      end
  end.

Definition md5_of (data : list byte) : string :=
  md5_hexdigest H (read_chunks (S (length data)) data (md5_new H)).

(** [get_file_hash]: the digest, or [None] when reading raised. *)
Definition get_file_hash (fs : node) (filepath : list string) : option string :=
  match Os.read_bytes fs filepath with
  | Some data => Some (md5_of data)
  | None => None
  end.

(** [YandexDiskAPI.create_folder]. *)
Definition create_folder (self : YandexDiskAPI) (path : option string) : M bool :=
  let full_path := get_full_path self path None in
  log (CreateFolder path) ;;;
  r <- send (PutResource full_path) ;;
  if status_in (status r) [201; 409]%Z then ret true else ret false.

(** [YandexDiskAPI.get_info]. *)
Definition get_info (self : YandexDiskAPI) (remote_dir_path : string)
  : M (gmap string (option string)) :=
  log (GetInfo remote_dir_path) ;;;
  r <- send (GetResource remote_dir_path) ;;
  if (status r =? 200)%Z then ret (cloud_files_of (items r))
  else raise (FileNotFoundError remote_dir_path).

(** [YandexDiskAPI.get_upload_url]. *)
Definition get_upload_url (self : YandexDiskAPI) (remote_path : string)
  : M (option string) :=
  let full_path := sanitize_path remote_path in
  r <- send (GetUploadLink full_path) ;;
  if (status r =? 200)%Z then ret (href r) else ret None.

(** [YandexDiskAPI.upload]. *)
Definition upload (self : YandexDiskAPI) (fs : node)
  (file_path : list string) (remote_path : string) : M bool :=
  log (Upload file_path remote_path) ;;;
  upload_url <- get_upload_url self remote_path ;;
  if opt_truthy upload_url then
    match Os.read_bytes fs file_path with
    | Some data =>
        r <- send (PutContent (default "" upload_url) data) ;;
        if status_in (status r) [200; 201; 202]%Z then ret true else ret false
    | None => raise (OSError file_path)
    end
  else ret false.

(** [YandexDiskAPI.delete]. *)
Definition delete (self : YandexDiskAPI) (remote_path_to_file : string) : M bool :=
  log (Delete remote_path_to_file) ;;;
  r <- send (DeleteResource remote_path_to_file) ;;
  if status_in (status r) [200; 202; 204]%Z then ret true else ret false.

(** [YandexDiskAPI.cleanup]. *)
Definition files_to_delete (cloud_files : gmap string (option string))
  (local_files : list string) : gset string :=
  let remote_set : gset string := dom cloud_files in
  let local_set : gset string := list_to_set local_files in
  remote_set ∖ local_set.

Definition cleanup (self : YandexDiskAPI) (remote_path : option string)
  (cloud_files : gmap string (option string)) (local_files : list string)
  : M unit :=
  for_each (elements (files_to_delete cloud_files local_files))
    (fun remote_file =>
       delete self (get_full_path self remote_path (Some remote_file)) ;;;
       ret tt).

(** [os.listdir] in the monad. A listing that fails is taken for the
    [FileNotFoundError] of a directory that is gone, which
    [sync_directory] catches; the other errors of [os.listdir] are left
    out, see [Os.listdir]. *)
Definition listdir (fs : node) (local_dir : list string) : M (list string) :=
  match Os.listdir fs local_dir with
  | Some names => ret names
  | None => raise (FileNotFoundError (Os.relpath local_dir))
  end.

(** [YandexDiskAPI.sync_directory]. *)
Definition sync_directory (self : YandexDiskAPI) (fs : node)
  (local_dir : list string) (remote_path : option string) : M unit :=
  create_folder self remote_path ;;;
  let cur_path := get_full_path self remote_path None in
  try_except_FileNotFoundError
    (cloud_files <- get_info self cur_path ;;
     names <- listdir fs local_dir ;;
     let local_files :=
       List.filter (fun f => validate_path f && Os.isfile fs (local_dir ++ [f])) names in
     for_each local_files
       (fun file =>
          let local_file_path := local_dir ++ [file] in
          let remote_file_path := get_full_path self remote_path (Some file) in
          let local_hash := get_file_hash fs local_file_path in
          let cloud_hash := dict_get cloud_files file in
          if py_ne local_hash cloud_hash
          then append_upload_task (local_file_path, remote_file_path)
          else ret tt) ;;;
     names' <- listdir fs local_dir ;;
     cleanup self remote_path cloud_files names')
    (fun _ => ret tt).

(** [YandexDiskAPI.create_folders_first]. *)
Definition create_folders_first (self : YandexDiskAPI) (fs : node) : M unit :=
  for_each (Os.walk [] fs)
    (fun '(root, _, _) =>
       let remote_path := sanitize_path (Os.relpath root) in
       if validate_path remote_path
       then create_folder self (Some remote_path) ;;; ret tt
       else ret tt).

(** The [else] branch of [sync_folder]: one [sync_directory] per eligible
    directory below the root, gathered. *)
Definition sync_subdirectories (self : YandexDiskAPI) (fs : node) : M unit :=
  for_each (Os.walk [] fs)
    (fun '(root, _, _) =>
       if negb (bool_decide (root = []))
       then
         let remote_path := sanitize_path (Os.relpath root) in
         if validate_path remote_path
         then sync_directory self fs root (Some remote_path)
         else ret tt
       else ret tt).

(** [asyncio.gather] over [upload_tasks]: every queued upload runs; the
    first exception among them is the one raised. *)
Fixpoint gather_uploads (self : YandexDiskAPI) (fs : node)
  (tasks : list (list string * string)) : M unit :=
  match tasks with
  | [] => ret tt
  | (file_path, remote_path) :: rest =>
      fun w =>
        match upload self fs file_path remote_path w with
        | (Returned _, w') => gather_uploads self fs rest w'
        | (Raised e, w') =>
            (Raised e, snd (gather_uploads self fs rest w'))
        end
  end.

(** [YandexDiskAPI.sync_folder]. *)
Definition sync_folder (self : YandexDiskAPI) (fs : node) : M unit :=
  write_upload_tasks [] ;;;
  sync_directory self fs [] None ;;;
  fr <- read_first_run ;;
  (if fr then create_folders_first self fs
   else sync_subdirectories self fs) ;;;
  tasks <- read_upload_tasks ;;
  (match tasks with
   | [] => ret tt
   | _ => gather_uploads self fs tasks
   end) ;;;
  write_first_run false.

(** [sync_folder] with the [else] branch in place of the test of
    [first_run]: what an incremental pass runs. *)
Definition incremental_pass (self : YandexDiskAPI) (fs : node) : M unit :=
  write_upload_tasks [] ;;;
  sync_directory self fs [] None ;;;
  sync_subdirectories self fs ;;;
  tasks <- read_upload_tasks ;;
  (match tasks with
   | [] => ret tt
   | _ => gather_uploads self fs tasks
   end) ;;;
  write_first_run false.

(** [sync_folder] with the [if] branch in place of the test of
    [first_run]: what the bootstrap pass runs. *)
Definition bootstrap_pass (self : YandexDiskAPI) (fs : node) : M unit :=
  write_upload_tasks [] ;;;
  sync_directory self fs [] None ;;;
  create_folders_first self fs ;;;
  tasks <- read_upload_tasks ;;
  (match tasks with
   | [] => ret tt
   | _ => gather_uploads self fs tasks
   end) ;;;
  write_first_run false.

(** Calls of [sync_folder] one after the other, each on its own instance
    and its own snapshot of the local folder. *)
Fixpoint sync_folder_calls (calls : list (YandexDiskAPI * node)) : M unit :=
  match calls with
  | [] => ret tt
  | (self, fs) :: rest => sync_folder self fs ;;; sync_folder_calls rest
  end.

(** [sync_files] of [main.py]: a fresh instance for every cycle. *)
Definition sync_files (YANDEX_TOKEN YANDEX_FOLDER : string)
  (LOCAL_FOLDER : option node) : M unit :=
  match LOCAL_FOLDER with
  | None => ret tt
  | Some fs =>
      let api := init YANDEX_TOKEN YANDEX_FOLDER 55 in
      sync_folder api fs
  end.

(** The loop of [main], for as many cycles as there are snapshots of the
    local folder; an exception ends the process. *)
Fixpoint main (YANDEX_TOKEN YANDEX_FOLDER : string)
  (cycles : list (option node)) : M unit :=
  match cycles with
  | [] => ret tt
  | fs :: rest =>
      sync_files YANDEX_TOKEN YANDEX_FOLDER fs ;;;
      main YANDEX_TOKEN YANDEX_FOLDER rest
  end.

(** The operations a computation calls when started in [w]. *)
Definition issued {A} (m : M A) (w : world) : list op :=
  skipn (length (trace w)) (trace (snd (m w))).

(** The answer to the listing request of [sync_directory], which follows
    the request of its [create_folder]. *)
Definition listing_reply (self : YandexDiskAPI) (remote_path : option string)
  (w : world) : response :=
  let full_path := get_full_path self remote_path None in
  fst (serve C (GetResource full_path)
         (snd (serve C (PutResource full_path) (cloud w)))).

(** ** Specifications of computations

    [triple Pre Inv P m Post]: started in a world that satisfies [Pre] and
    the invariant [Inv] (on the flag and the queue), [m] calls only
    operations that satisfy [P], keeps [Inv], and establishes [Post] when
    it returns. *)
Definition triple {A} (Pre : world -> Prop)
  (Inv : bool -> list (list string * string) -> Prop)
  (P : op -> Prop) (m : M A) (Post : A -> world -> Prop) : Prop :=
  forall w, Pre w -> Inv (first_run w) (upload_tasks w) ->
    (exists ops, trace (snd (m w)) = trace w ++ ops /\ Forall P ops)
    /\ Inv (first_run (snd (m w))) (upload_tasks (snd (m w)))
    /\ forall a, fst (m w) = Returned a -> Post a (snd (m w)).

Definition any : world -> Prop := fun _ => True.
Definition whatever {A} : A -> world -> Prop := fun _ _ => True.

End Engine.

Arguments first_run {C} w.
Arguments cloud {C} w.
Arguments upload_tasks {C} w.
Arguments trace {C} w.
Arguments issued {C A} m w.
Arguments triple {C A} Pre Inv P m Post.
Arguments any {C} w.
Arguments whatever {C A} a w.

(** ** Reading a trace *)

Definition deletes (ops : list op) : list string :=
  omap (fun o => match o with Delete p => Some p | _ => None end) ops.

Definition uploads (ops : list op) : list (list string * string) :=
  omap (fun o => match o with Upload f r => Some (f, r) | _ => None end) ops.

Definition created (ops : list op) : list (option string) :=
  omap (fun o => match o with CreateFolder p => Some p | _ => None end) ops.

Definition listed (ops : list op) : list string :=
  omap (fun o => match o with GetInfo p => Some p | _ => None end) ops.

(** The eligibility rule in the words of the specification: some segment
    starts with a dot, an underscore or the reserved prefix, or the path
    holds an ampersand. *)
Definition ineligible (path : string) : Prop :=
  (exists seg, In seg (PyStr.split "/"%char path) /\
     (PyStr.startswith "." seg = true \/ PyStr.startswith "_" seg = true
      \/ PyStr.startswith "venv" seg = true))
  \/ PyStr.contains "&"%char path = true.

(** A directory that [os.walk] yields. *)
Definition walked (fs : node) (root : list string) : Prop :=
  exists dirs files, In (root, dirs, files) (Os.walk [] fs).

(** What the eligibility filter lets the engine call: a folder below the
    root is created only under a relative path that [validate_path]
    accepts, and a file is uploaded only if [validate_path] accepts its
    path relative to the local folder. *)
Definition eligible_op (o : op) : Prop :=
  match o with
  | CreateFolder (Some p) => validate_path p = true
  | Upload file_path _ => validate_path (Os.relpath file_path) = true
  | _ => True
  end.

(** ** A cloud that stores what it is sent

    The instance of [cloud_api] used for the worked scenarios: a store of
    folder paths and of file paths with the digest of their content. It
    answers as the REST interface documents: [201] for a created folder
    and [409] for one that exists, [200] with the direct children for a
    listing and [404] for an unknown folder, [200] with a link for an
    upload request and [201] once the content is put, [204] for a
    deletion and [404] when there is nothing to delete. *)

Module Disk.

Record state : Type := State {
  folders : gset string;
  files : gmap string string
}.

Definition empty : state := {| folders := ∅; files := ∅ |}.

Fixpoint drop (n : nat) (s : string) : string :=
  match n, s with
  | S n', String _ s' => drop n' s'
  | _, _ => s
  end.

(** The name of [path] inside [dir], when [path] is a direct child. *)
Definition child_name (dir path : string) : option string :=
  let prefix := dir +:+ "/" in
  if PyStr.startswith prefix path then
    let name := drop (String.length prefix) path in
    if PyStr.truthy name && negb (PyStr.contains "/"%char name)
    then Some name else None
  else None.

Definition listing (dir : string) (st : state) : list item :=
  omap (fun '(p, d) =>
          match child_name dir p with
          | Some name => Some (Item name (Some d) (Some "file"))
          | None => None
          end) (map_to_list (files st))
  ++ omap (fun p =>
             match child_name dir p with
             | Some name => Some (Item name None (Some "dir"))
             | None => None
             end) (elements (folders st)).

Definition answer (H : hashlib) (r : request) (st : state) : response * state :=
  match r with
  | PutResource p =>
      if bool_decide (p ∈ folders st) then (Response 409 [] None, st)
      else (Response 201 [] None,
            {| folders := {[p]} ∪ folders st; files := files st |})
  | GetResource p =>
      if bool_decide (p ∈ folders st) then (Response 200 (listing p st) None, st)
      else (Response 404 [] None, st)
  | GetUploadLink p => (Response 200 [] (Some p), st)
  | PutContent p data =>
      (Response 201 [] None,
       {| folders := folders st; files := <[p := md5_of H data]> (files st) |})
  | DeleteResource p =>
      if bool_decide (is_Some (files st !! p)) then
        (Response 204 [] None,
         {| folders := folders st; files := base.delete p (files st) |})
      else (Response 404 [] None, st)
  end.

Definition api (H : hashlib) : cloud_api :=
  {| cloud_state := state; serve := answer H |}.

End Disk.

(** ** Coroutines on the event loop

    The order in which the coroutines of a pass take their turns is not
    fixed by the program. Here a coroutine is the list of what it still
    has to do, and a schedule picks whose turn it is. A request is in
    flight from the turn that sends it to the turn that receives the
    response. *)

Module Asyncio.

(** The five HTTP exchanges of the class. *)
Inductive exchange : Type :=
| PutFolder
| GetListing
| GetLink
| PutData
| DeleteFile.

#[local] Unset Elimination Schemes.
Inductive instr : Type :=
| Acquire
| Release
| Send (x : exchange)
| Receive (x : exchange)
| CreateTask (body : list instr).
#[local] Set Elimination Schemes.

(** [async with session.put(...) as response] and the like. *)
Definition exchange_with_cloud (x : exchange) : list instr := [Send x; Receive x].

(** [async with self.semaphore: body]. *)
Definition with_semaphore (body : list instr) : list instr :=
  [Acquire] ++ body ++ [Release].

Definition create_folder : list instr := exchange_with_cloud PutFolder.

Definition get_info : list instr := exchange_with_cloud GetListing.

Definition get_upload_url : list instr := exchange_with_cloud GetLink.

(** [upload]; [link] tells whether [get_upload_url] returns a link. *)
Definition upload (link : bool) : list instr :=
  with_semaphore
    (get_upload_url ++ if link then exchange_with_cloud PutData else []).

Definition delete : list instr := with_semaphore (exchange_with_cloud DeleteFile).

(** [cleanup] with [stale] names to delete, one after the other. *)
Definition cleanup (stale : nat) : list instr := concat (repeat delete stale).

(** [sync_directory], for a directory whose listing succeeds or not,
    that queues one upload task per element of [queued] and has [stale]
    names to delete. *)
Definition sync_directory (listed : bool) (queued : list bool) (stale : nat)
  : list instr :=
  create_folder ++ get_info
  ++ if listed then map (fun link => CreateTask (upload link)) queued ++ cleanup stale
     else [].

(** The event loop: the value of the semaphore and the coroutines. *)
Record loop : Type := Loop {
  semaphore : nat;
  tasks : list (list instr)
}.

(** [asyncio.gather] over the [sync_tasks] of an incremental pass, on the
    semaphore of the instance. *)
Definition gather_sync_tasks (self : YandexDiskAPI)
  (directories : list (bool * list bool * nat)) : loop :=
  {| semaphore := max_concurrent_requests self;
     tasks := map (fun '(listed, queued, stale) => sync_directory listed queued stale)
                directories |}.

(** The coroutine [i] takes its turn; [None] when it cannot. *)
Definition turn (i : nat) (l : loop) : option loop :=
  match tasks l !! i with
  | Some (Acquire :: rest) =>
      match semaphore l with
      | S n => Some {| semaphore := n; tasks := <[i := rest]> (tasks l) |}
      | O => None
      end
  | Some (Release :: rest) =>
      Some {| semaphore := S (semaphore l); tasks := <[i := rest]> (tasks l) |}
  | Some (Send _ :: rest) | Some (Receive _ :: rest) =>
      Some {| semaphore := semaphore l; tasks := <[i := rest]> (tasks l) |}
  | Some (CreateTask body :: rest) =>
      Some {| semaphore := semaphore l; tasks := <[i := rest]> (tasks l) ++ [body] |}
  | Some [] | None => None
  end.

Fixpoint run (schedule : list nat) (l : loop) : option loop :=
  match schedule with
  | [] => Some l
  | i :: rest =>
      match turn i l with
      | Some l' => run rest l'
      | None => None
      end
  end.

(** The exchange a coroutine is waiting for. *)
Definition awaited (t : list instr) : option exchange :=
  match t with
  | Receive x :: _ => Some x
  | _ => None
  end.

(** The number of requests in flight. *)
Definition in_flight (l : loop) : nat :=
  length (List.filter (fun t => bool_decide (is_Some (awaited t))) (tasks l)).

(** The exchanges that [upload] and [delete] make. *)
Definition under_semaphore (x : exchange) : bool :=
  match x with
  | GetLink | PutData | DeleteFile => true
  | PutFolder | GetListing => false
  end.

(** The number of requests of [upload] and [delete] in flight. *)
Definition transfers_in_flight (l : loop) : nat :=
  length (List.filter
            (fun t => match awaited t with
                      | Some x => under_semaphore x
                      | None => false
                      end) (tasks l)).

(** Whether a coroutine is inside the semaphore: the next bracket it
    meets closes it. *)
Fixpoint holding (t : list instr) : bool :=
  match t with
  | [] => false
  | Acquire :: _ => false
  | Release :: _ => true
  | _ :: rest => holding rest
  end.

(** The brackets of the semaphore match, and the requests of [upload]
    and [delete] are made inside them. *)
Fixpoint bracketed (inside : bool) (t : list instr) : bool :=
  match t with
  | [] => negb inside
  | Acquire :: rest => negb inside && bracketed true rest
  | Release :: rest => inside && bracketed false rest
  | Send x :: rest | Receive x :: rest =>
      implb (under_semaphore x) inside && bracketed inside rest
  | CreateTask _ :: rest => bracketed inside rest
  end.

(** The tasks created are bracketed too, starting outside. *)
Fixpoint spawns_ok (i : instr) : bool :=
  match i with
  | CreateTask body => bracketed false body && forallb spawns_ok body
  | _ => true
  end.

Definition task_ok (t : list instr) : bool :=
  bracketed (holding t) t && forallb spawns_ok t.

(** The number of coroutines inside the semaphore. *)
Definition holders (l : loop) : nat := length (List.filter holding (tasks l)).

(** The semaphore and the coroutines inside it add up to the limit. *)
Definition balanced (limit : nat) (l : loop) : Prop :=
  Forall (fun t => task_ok t = true) (tasks l) /\ semaphore l + holders l = limit.

End Asyncio.

(** ** The scenario of the specification: [a.txt] holding [x] and the
    folder [b] holding [b.txt] with [y], against an empty cloud *)

Module Scenario.

Definition tree : node :=
  Dir [("a.txt", File (Some [x78]));
       ("b", Dir [("b.txt", File (Some [x79]))])].

Definition api : YandexDiskAPI := init "t" "backup" 55.

Definition disk : cloud_api := Disk.api Md5.lib.

(** The process starts and the cloud is empty. *)
Definition start : world disk :=
  {| first_run := true; cloud := Disk.empty : cloud_state disk;
     upload_tasks := []; trace := [] |}.

(** The worlds after the first, the second and the third pass. *)
Definition after1 : world disk := snd (sync_folder Md5.lib disk api tree start).
Definition after2 : world disk := snd (sync_folder Md5.lib disk api tree after1).
Definition after3 : world disk := snd (sync_folder Md5.lib disk api tree after2).

End Scenario.

(** ** Worlds and clouds for worked examples *)

Module Example.

(** A cloud that answers every request with the same status and body. *)
Definition always (r : response) : cloud_api :=
  {| cloud_state := unit; serve := fun _ st => (r, st) |}.

(** A process that has not completed a pass, facing the given cloud. *)
Definition fresh (C : cloud_api) (c : cloud_state C) : world C :=
  {| first_run := true; cloud := c; upload_tasks := []; trace := [] |}.

(** A process that has completed a pass. *)
Definition seasoned (C : cloud_api) (c : cloud_state C) : world C :=
  {| first_run := false; cloud := c; upload_tasks := []; trace := [] |}.

Definition api : YandexDiskAPI := init "t" "backup" 55.


(** A cloud folder [backup] holding a file kept locally, a file gone
    locally, and a hidden file. *)
Definition mixed_disk : Disk.state :=
  {| Disk.folders := {["backup"]};
     Disk.files := {["backup/keep.txt" := "a"; "backup/gone.txt" := "b";
                     "backup/.hidden" := "c"]} |}.

(** A cloud folder [backup] with a folder [b] holding [old2.txt]. *)
Definition nested_disk : Disk.state :=
  {| Disk.folders := {["backup"; "backup/b"]};
     Disk.files := {["backup/b/old2.txt" := "d41d8cd98f00b204e9800998ecf8427e"]} |}.

(** A cloud folder [backup] holding [a.txt]. *)
Definition a_txt_disk : Disk.state :=
  {| Disk.folders := {["backup"]};
     Disk.files := {["backup/a.txt" := "0cc175b9c0f1b6a831c399e269772661"]} |}.

End Example.

(** ** What a step does to the world *)

(** The world after a step that moved the cloud to [c], queued [queued]
    and called [ops]. *)
Definition advance {C} (w : world C) (c : cloud_state C)
  (queued : list (list string * string)) (ops : list op) : world C :=
  {| first_run := first_run w; cloud := c;
     upload_tasks := upload_tasks w ++ queued; trace := trace w ++ ops |}.

(** The files of a directory that [sync_directory] queues, given the
    listing of the cloud and the names of the local listing. *)
Definition changed_files (H : hashlib) (fs : node) (local_dir : list string)
  (cloud_files : gmap string (option string)) (names : list string) : list string :=
  List.filter
    (fun file =>
       validate_path file && Os.isfile fs (local_dir ++ [file])
       && py_ne (get_file_hash H fs (local_dir ++ [file])) (dict_get cloud_files file))
    names.

(** The task that [sync_directory] queues for a file. *)
Definition upload_task (self : YandexDiskAPI) (local_dir : list string)
  (remote_path : option string) (file : string) : list string * string :=
  (local_dir ++ [file], get_full_path self remote_path (Some file)).

(** The relative paths of the directories that pass [validate_path], in
    the order of [os.walk]. *)
Definition eligible_directories (fs : node) : list string :=
  List.filter validate_path
    (map (fun '(root, _, _) => sanitize_path (Os.relpath root)) (Os.walk [] fs)).

(** The upload link that [get_upload_url] obtains in [w], if any. *)
Definition link_granted (C : cloud_api) (remote_path : string) (w : world C) : bool :=
  let r := fst (serve C (GetUploadLink (sanitize_path remote_path)) (cloud w)) in
  (status r =? 200)%Z && opt_truthy (href r).

(** What [sync_directory] queues and deletes in [w]: the changed files
    and the stale names when the listing of the cloud and the local
    listing both succeed, nothing otherwise. *)
Definition directory_diff (H : hashlib) (C : cloud_api) (self : YandexDiskAPI)
  (fs : node) (local_dir : list string)
  (remote_path : option string) (w : world C) : list string * list string :=
  let reply := listing_reply C self remote_path w in
  if (status reply =? 200)%Z then
    match Os.listdir fs local_dir with
    | Some names =>
        (changed_files H fs local_dir (cloud_files_of (items reply)) names,
         elements (files_to_delete (cloud_files_of (items reply)) names))
    | None => ([], [])
    end
  else ([], []).

(** The uploads a computation adds to the queue when started in [w]. *)
Definition enqueued {C A} (m : M C A) (w : world C) : list (list string * string) :=
  skipn (length (upload_tasks w)) (upload_tasks (snd (m w))).

(** * Properties *)

(** ** Worked values of the path helpers *)

Example normpath_collapses : PosixPath.normpath "a//b/./c/../d/" = "a/b/d".
Proof. reflexivity. Qed.

Example normpath_two_slashes : PosixPath.normpath "//a/../.." = "//".
Proof. reflexivity. Qed.

Example normpath_keeps_leading_parents :
  PosixPath.normpath "../a/../../b" = "../../b".
Proof. reflexivity. Qed.

Example normpath_three_slashes : PosixPath.normpath "///a" = "/a".
Proof. reflexivity. Qed.

Example sanitize_dot : sanitize_path "." = ".".
Proof. reflexivity. Qed.

Example validate_dot : validate_path "." = false.
Proof. reflexivity. Qed.

Example validate_reserved_prefix : validate_path "src/venv3/x" = false.
Proof. reflexivity. Qed.

Example validate_plain : validate_path "src/a.txt" = true.
Proof. reflexivity. Qed.

(** ** A program logic for the engine's monad *)

Section Logic.

Variable H : hashlib.
Variable C : cloud_api.

Lemma triple_weaken {A} (Pre Pre' : world C -> Prop) Inv P (m : M C A)
  (Post Post' : A -> world C -> Prop) :
  triple Pre' Inv P m Post' ->
  (forall w, Pre w -> Pre' w) ->
  (forall a w, Post' a w -> Post a w) ->
  triple Pre Inv P m Post.
Proof.
  intros Hm Hpre Hpost w Hw Hi.
  destruct (Hm w (Hpre _ Hw) Hi) as (Hops & Hinv & Hret).
  repeat split; auto.
Qed.

Lemma triple_ret {A} (Pre : world C -> Prop) Inv P (a : A) (Post : A -> world C -> Prop) :
  (forall w, Pre w -> Post a w) -> triple Pre Inv P (ret C a) Post.
Proof.
  intros Hp w Hw Hi. cbn. repeat split; auto.
  - exists []. rewrite app_nil_r. auto.
  - intros a' [= <-]. auto.
Qed.

Lemma triple_raise {A} Pre Inv P (e : exn) (Post : A -> world C -> Prop) :
  triple Pre Inv P (raise C e) Post.
Proof.
  intros w Hw Hi. cbn. repeat split; auto.
  - exists []. rewrite app_nil_r. auto.
  - intros a' [=].
Qed.

Lemma triple_bind {A B} Pre Inv P (m : M C A) (k : A -> M C B)
  (Mid : A -> world C -> Prop) (Post : B -> world C -> Prop) :
  triple Pre Inv P m Mid ->
  (forall a, triple (Mid a) Inv P (k a) Post) ->
  triple Pre Inv P (bind C m k) Post.
Proof.
  intros Hm Hk w Hw Hi. unfold bind.
  destruct (Hm w Hw Hi) as ((ops & Htr & Hops) & Hinv & Hret).
  destruct (m w) as [[a | e] w1] eqn:Hrun; cbn in *.
  - destruct (Hk a w1 (Hret a eq_refl) Hinv) as ((ops' & Htr' & Hops') & Hinv' & Hret').
    repeat split; auto.
    exists (ops ++ ops'). rewrite Htr', Htr, app_assoc. split; auto.
    apply Forall_app; auto.
  - repeat split; auto.
    + exists ops. auto.
    + intros b [=].
Qed.

Lemma triple_seq {A B} Pre Inv P (m : M C A) (k : A -> M C B)
  (Post : B -> world C -> Prop) :
  triple Pre Inv P m whatever ->
  (forall a, triple any Inv P (k a) Post) ->
  triple Pre Inv P (bind C m k) Post.
Proof. intros Hm Hk. eapply triple_bind; [exact Hm | exact Hk]. Qed.

Lemma triple_pre_any {A} (Pre : world C -> Prop) Inv P (m : M C A) Post :
  triple any Inv P m Post -> triple Pre Inv P m Post.
Proof. intros Hm. eapply triple_weaken; [exact Hm | intros; exact I | auto]. Qed.

Lemma triple_post_whatever {A} Pre Inv P (m : M C A) (Post : A -> world C -> Prop) :
  triple Pre Inv P m Post -> triple Pre Inv P m whatever.
Proof. intros Hm. eapply triple_weaken; [exact Hm | auto | intros; exact I]. Qed.

(** A fact that the precondition carries and that does not depend on the
    world can be used to specify the computation. *)
Lemma triple_assume {A} (Q : Prop) Inv P (m : M C A) (Post : A -> world C -> Prop) :
  (Q -> triple any Inv P m Post) -> triple (fun _ => Q) Inv P m Post.
Proof. intros Hm w Hq. apply Hm; [exact Hq | exact I]. Qed.

Lemma bind_ext_on {A B} (m : M C A) (k1 k2 : A -> M C B) (w : world C) :
  (forall a w', m w = (Returned a, w') -> k1 a w' = k2 a w') ->
  bind C m k1 w = bind C m k2 w.
Proof.
  intros Hk. unfold bind. destruct (m w) as [[a | e] w']; [apply Hk |]; reflexivity.
Qed.

(** The precondition may be used where the computation is specified. *)
Lemma triple_assume_world {A} (Pre : world C -> Prop) Inv P (m : M C A)
  (Post : A -> world C -> Prop) :
  (forall w0, Pre w0 -> triple (eq w0) Inv P m Post) -> triple Pre Inv P m Post.
Proof. intros Hm w Hw. apply (Hm w Hw). reflexivity. Qed.

Lemma triple_try {A} Pre Inv P (body : M C A) (handler : string -> M C A)
  (Post : A -> world C -> Prop) :
  triple Pre Inv P body Post ->
  (forall what, triple any Inv P (handler what) Post) ->
  triple Pre Inv P (try_except_FileNotFoundError C body handler) Post.
Proof.
  intros Hb Hh w Hw Hi. unfold try_except_FileNotFoundError.
  destruct (Hb w Hw Hi) as ((ops & Htr & Hops) & Hinv & Hret).
  destruct (body w) as [[a | [what | fp]] w1] eqn:Hrun; cbn in *.
  - repeat split; eauto.
  - destruct (Hh what w1 I Hinv) as ((ops' & Htr' & Hops') & Hinv' & Hret').
    repeat split; auto.
    exists (ops ++ ops'). rewrite Htr', Htr, app_assoc. split; auto.
    apply Forall_app; auto.
  - repeat split; eauto.
Qed.

Lemma triple_for_each {A} Inv P (l : list A) (body : A -> M C unit) :
  (forall x, In x l -> triple any Inv P (body x) whatever) ->
  triple any Inv P (for_each C l body) whatever.
Proof.
  induction l as [| x l IH]; intros Hbody; cbn [for_each].
  - apply triple_ret. intros; exact I.
  - eapply triple_bind.
    + apply Hbody. left; reflexivity.
    + intros u. eapply triple_weaken.
      * apply IH. intros y Hy. apply Hbody. right; exact Hy.
      * intros; exact I.
      * auto.
Qed.

Lemma triple_log Inv P (o : op) :
  P o -> triple any Inv P (log C o) whatever.
Proof.
  intros Ho w _ Hi. cbn. repeat split; auto.
  exists [o]. split; auto.
Qed.

Lemma triple_send Inv P (r : request) :
  triple any Inv P (send C r) whatever.
Proof.
  intros w _ Hi. unfold send. destruct (serve C r (cloud w)) as [resp c']. cbn.
  repeat split; auto. exists []. rewrite app_nil_r. auto.
Qed.

(** *** Rules for the operations of the engine *)

(** A primitive that leaves the trace alone. *)
Ltac silent_step :=
  intros w _ Hi; cbn;
  split; [exists []; rewrite app_nil_r; auto | split; [auto |]].

Lemma triple_read_first_run Inv P :
  triple any Inv P (read_first_run C) (fun b w => b = first_run w).
Proof. silent_step. intros a [= <-]. reflexivity. Qed.

Lemma triple_write_first_run (Inv : bool -> list (list string * string) -> Prop) P b :
  (forall fr l, Inv fr l -> Inv b l) ->
  triple any Inv P (write_first_run C b) (fun _ w => first_run w = b).
Proof. intros Hb. silent_step; eauto. Qed.

Lemma triple_read_upload_tasks (Inv : bool -> list (list string * string) -> Prop) P :
  triple any Inv P (read_upload_tasks C)
    (fun l w => l = upload_tasks w /\ Inv (first_run w) l).
Proof. silent_step. intros a [= <-]. auto. Qed.

Lemma triple_write_upload_tasks (Inv : bool -> list (list string * string) -> Prop) P l :
  (forall fr l0, Inv fr l0 -> Inv fr l) ->
  triple any Inv P (write_upload_tasks C l) whatever.
Proof. intros Hl. silent_step; eauto. intros; exact I. Qed.

Lemma triple_append_upload_task (Inv : bool -> list (list string * string) -> Prop) P t :
  (forall fr l, Inv fr l -> Inv fr (l ++ [t])) ->
  triple any Inv P (append_upload_task C t) whatever.
Proof. intros Ht. silent_step; auto. intros; exact I. Qed.

Lemma triple_create_folder Inv (P : op -> Prop) self path :
  P (CreateFolder path) ->
  triple any Inv P (create_folder C self path) whatever.
Proof.
  intros Hp. unfold create_folder.
  apply triple_seq; [apply triple_log; exact Hp |]. intros ?.
  apply triple_seq; [apply triple_send |]. intros r.
  destruct (status_in _ _); apply triple_ret; intros; exact I.
Qed.

Lemma triple_get_info Inv (P : op -> Prop) self p :
  P (GetInfo p) ->
  triple any Inv P (get_info C self p) whatever.
Proof.
  intros Hp. unfold get_info.
  apply triple_seq; [apply triple_log; exact Hp |]. intros ?.
  apply triple_seq; [apply triple_send |]. intros r.
  destruct (_ =? _)%Z; [apply triple_ret; intros; exact I | apply triple_raise].
Qed.

Lemma triple_delete Inv (P : op -> Prop) self p :
  P (Delete p) ->
  triple any Inv P (delete C self p) whatever.
Proof.
  intros Hp. unfold delete.
  apply triple_seq; [apply triple_log; exact Hp |]. intros ?.
  apply triple_seq; [apply triple_send |]. intros r.
  destruct (status_in _ _); apply triple_ret; intros; exact I.
Qed.

Lemma triple_upload Inv (P : op -> Prop) self fs fp rp :
  P (Upload fp rp) ->
  triple any Inv P (upload C self fs fp rp) whatever.
Proof.
  intros Hp. unfold upload, get_upload_url.
  apply triple_seq; [apply triple_log; exact Hp |]. intros ?.
  apply triple_seq.
  - apply triple_seq; [apply triple_send |]. intros r.
    destruct (_ =? _)%Z; apply triple_ret; intros; exact I.
  - intros url. destruct (opt_truthy url); [| apply triple_ret; intros; exact I].
    destruct (Os.read_bytes fs fp); [| apply triple_raise].
    apply triple_seq; [apply triple_send |]. intros r.
    destruct (status_in _ _); apply triple_ret; intros; exact I.
Qed.

Lemma triple_listdir Inv P fs local_dir :
  triple any Inv P (listdir C fs local_dir)
    (fun names _ => Os.listdir fs local_dir = Some names).
Proof.
  unfold listdir. destruct (Os.listdir fs local_dir) as [names |].
  - apply triple_ret. auto.
  - apply triple_raise.
Qed.

Lemma in_files_to_delete cloud_files names name :
  In name (elements (files_to_delete cloud_files names)) <->
  name ∈ dom cloud_files /\ ~ In name names.
Proof.
  rewrite <- list_elem_of_In, elem_of_elements. unfold files_to_delete.
  rewrite elem_of_difference, elem_of_list_to_set, list_elem_of_In. reflexivity.
Qed.

Lemma triple_cleanup Inv (P : op -> Prop) self remote_path cloud_files names :
  (forall name, name ∈ dom cloud_files -> ~ In name names ->
     P (Delete (get_full_path self remote_path (Some name)))) ->
  triple any Inv P (cleanup C self remote_path cloud_files names) whatever.
Proof.
  intros Hp. unfold cleanup. apply triple_for_each.
  intros name Hin. apply in_files_to_delete in Hin as [Hdom Hnot].
  apply triple_seq; [apply triple_delete; auto |]. intros ?.
  apply triple_ret; intros; exact I.
Qed.

Lemma triple_sync_directory (Inv : bool -> list (list string * string) -> Prop)
  (P : op -> Prop) self fs local_dir remote_path :
  P (CreateFolder remote_path) ->
  P (GetInfo (get_full_path self remote_path None)) ->
  (forall names name, Os.listdir fs local_dir = Some names -> ~ In name names ->
     P (Delete (get_full_path self remote_path (Some name)))) ->
  (forall fr l file, Inv fr l -> validate_path file = true ->
     Inv fr (l ++ [(local_dir ++ [file], get_full_path self remote_path (Some file))])) ->
  triple any Inv P (sync_directory H C self fs local_dir remote_path) whatever.
Proof.
  intros Hcreate Hinfo Hdel Hqueue. unfold sync_directory.
  apply triple_seq; [apply triple_create_folder; exact Hcreate |]. intros ?.
  apply triple_try; [| intros; apply triple_ret; intros; exact I].
  apply triple_seq; [apply triple_get_info; exact Hinfo |]. intros cloud_files.
  apply triple_seq; [apply triple_post_whatever with (1 := triple_listdir _ _ _ _) |].
  intros names.
  apply triple_seq.
  - apply triple_for_each.
    intros file Hin. apply filter_In in Hin as [_ Hok].
    apply andb_true_iff in Hok as [Hvalid _].
    destruct (py_ne _ _); [| apply triple_ret; intros; exact I].
    apply triple_append_upload_task. intros fr l Hl. apply Hqueue; auto.
  - intros ?.
    eapply triple_bind; [apply triple_listdir |]. intros names'.
    apply (triple_assume (Os.listdir fs local_dir = Some names')). intros Hnames'.
    apply triple_cleanup. intros name _ Hnot. eapply Hdel; eauto.
Qed.

Lemma triple_gather_uploads (Inv : bool -> list (list string * string) -> Prop)
  (P : op -> Prop) self fs tasks :
  (forall t, In t tasks -> P (Upload (fst t) (snd t))) ->
  triple any Inv P (gather_uploads C self fs tasks) whatever.
Proof.
  induction tasks as [| [fp rp] rest IH]; intros Hp; cbn [gather_uploads].
  - apply triple_ret; intros; exact I.
  - intros w _ Hi.
    destruct (triple_upload Inv P self fs fp rp (Hp (fp, rp) (or_introl eq_refl)) w I Hi)
      as ((ops & Htr & Hops) & Hinv & _).
    destruct (IH (fun t Ht => Hp t (or_intror Ht)) (snd (upload C self fs fp rp w)) I Hinv)
      as ((ops' & Htr' & Hops') & Hinv' & _).
    destruct (upload C self fs fp rp w) as [[b | e] w1]; cbn in *.
    + repeat split; auto.
      exists (ops ++ ops'). rewrite Htr', Htr, app_assoc. split; auto.
      apply Forall_app; auto.
    + repeat split; auto.
      exists (ops ++ ops'). rewrite Htr', Htr, app_assoc. split; auto.
      apply Forall_app; auto.
Qed.

End Logic.

(** ** The two kinds of pass *)

Section Passes.

Variable H : hashlib.
Variable C : cloud_api.
Variable self : YandexDiskAPI.
Variable fs : node.

(** [sync_directory] leaves the class attribute alone. *)
Lemma sync_directory_keeps_first_run local_dir remote_path (w : world C) :
  first_run (snd (sync_directory H C self fs local_dir remote_path w)) = first_run w.
Proof.
  destruct (triple_sync_directory H C (fun fr _ => fr = first_run w) (fun _ => True)
              self fs local_dir remote_path I I (fun _ _ _ _ => I)
              (fun _ _ _ Hfr _ => Hfr) w I eq_refl) as (_ & Hfr & _).
  exact Hfr.
Qed.

(** The test of [first_run] in [sync_folder] reads the value the flag had
    when the call started. *)
Lemma sync_folder_branch (w : world C) :
  sync_folder H C self fs w =
  if first_run w then bootstrap_pass H C self fs w
  else incremental_pass H C self fs w.
Proof.
  assert (Hflag : forall u1 w1 u2 w2,
            write_upload_tasks C [] w = (Returned u1, w1) ->
            sync_directory H C self fs [] None w1 = (Returned u2, w2) ->
            first_run w2 = first_run w).
  { intros u1 w1 u2 w2 [= _ <-] Hrun.
    pose proof (sync_directory_keeps_first_run [] None
                  {| first_run := first_run w; cloud := cloud w;
                     upload_tasks := []; trace := trace w |}) as Hkeep.
    rewrite Hrun in Hkeep. exact Hkeep. }
  unfold sync_folder.
  destruct (first_run w) eqn:Hw; [unfold bootstrap_pass | unfold incremental_pass];
    (apply bind_ext_on; intros u1 w1 Hw1; apply bind_ext_on; intros u2 w2 Hw2;
     unfold bind at 1; cbn [read_first_run];
     rewrite (Hflag _ _ _ _ Hw1 Hw2); reflexivity).
Qed.

(** [sync_folder] starts with a queue of its own: what it does and what
    it issues do not depend on the queue it finds. *)
Lemma sync_folder_fresh_queue (w : world C) :
  sync_folder H C self fs w =
  sync_folder H C self fs
    {| first_run := first_run w; cloud := cloud w; upload_tasks := [];
       trace := trace w |}.
Proof. reflexivity. Qed.

Lemma issued_sync_folder_fresh_queue (w : world C) :
  issued (sync_folder H C self fs) w =
  issued (sync_folder H C self fs)
    {| first_run := first_run w; cloud := cloud w; upload_tasks := [];
       trace := trace w |}.
Proof. unfold issued. rewrite <- sync_folder_fresh_queue. reflexivity. Qed.

Variable Inv : bool -> list (list string * string) -> Prop.
Variable P : op -> Prop.

Hypothesis Inv_fresh_queue : forall fr l, Inv fr l -> Inv fr [].
Hypothesis Inv_reset : forall fr l, Inv fr l -> Inv false l.
Hypothesis Inv_queue_root : forall fr l file,
  Inv fr l -> validate_path file = true ->
  Inv fr (l ++ [([] ++ [file], get_full_path self None (Some file))]).
Hypothesis Inv_queue_sub : forall fr l root file,
  walked fs root ->
  root <> [] -> validate_path (sanitize_path (Os.relpath root)) = true ->
  Inv fr l -> validate_path file = true ->
  Inv fr (l ++ [(root ++ [file],
                 get_full_path self (Some (sanitize_path (Os.relpath root))) (Some file))]).
Hypothesis Inv_tasks : forall fr l t,
  Inv fr l -> In t l -> P (Upload (fst t) (snd t)).
Hypothesis P_create_root : P (CreateFolder None).
Hypothesis P_create : forall root,
  walked fs root -> validate_path (sanitize_path (Os.relpath root)) = true ->
  P (CreateFolder (Some (sanitize_path (Os.relpath root)))).
Hypothesis P_info : forall p, P (GetInfo p).
Hypothesis P_delete_root : forall names name,
  Os.listdir fs [] = Some names -> ~ In name names ->
  P (Delete (get_full_path self None (Some name))).
Hypothesis P_delete_sub : forall root names name,
  walked fs root ->
  root <> [] -> validate_path (sanitize_path (Os.relpath root)) = true ->
  Os.listdir fs root = Some names -> ~ In name names ->
  P (Delete (get_full_path self (Some (sanitize_path (Os.relpath root))) (Some name))).

Lemma triple_root_directory :
  triple any Inv P (sync_directory H C self fs [] None) whatever.
Proof. apply triple_sync_directory; auto. Qed.

Lemma triple_create_folders_first :
  triple any Inv P (create_folders_first C self fs) whatever.
Proof.
  unfold create_folders_first. apply triple_for_each.
  intros [[root dirs] files] Hin.
  assert (Hwalked : walked fs root) by (exists dirs, files; exact Hin).
  destruct (validate_path _) eqn:Hvalid; [| apply triple_ret; intros; exact I].
  apply triple_seq; [apply triple_create_folder; auto |]. intros ?.
  apply triple_ret; intros; exact I.
Qed.

Lemma triple_sync_subdirectories :
  triple any Inv P (sync_subdirectories H C self fs) whatever.
Proof.
  unfold sync_subdirectories. apply triple_for_each.
  intros [[root dirs] files] Hin.
  assert (Hwalked : walked fs root) by (exists dirs, files; exact Hin).
  destruct (bool_decide (root = [])) eqn:Hroot; cbn [negb];
    [apply triple_ret; intros; exact I |].
  apply bool_decide_eq_false in Hroot.
  destruct (validate_path _) eqn:Hvalid; [| apply triple_ret; intros; exact I].
  apply triple_sync_directory; eauto.
Qed.

(** The end of a pass: the queued uploads are gathered and the flag is
    cleared. *)
Lemma triple_drain :
  triple any Inv P
    (bind C (read_upload_tasks C) (fun tasks =>
       bind C (match tasks with
               | [] => ret C tt
               | _ => gather_uploads C self fs tasks
               end) (fun _ => write_first_run C false)))
    (fun _ w => first_run w = false).
Proof.
  eapply triple_bind; [apply triple_read_upload_tasks |]. intros tasks.
  apply (triple_assume_world C). intros w0 [-> Hinv].
  apply triple_pre_any, triple_seq.
  - assert (Hgather : triple any Inv P
              (gather_uploads C self fs (upload_tasks w0)) whatever).
    { apply triple_gather_uploads. intros t Ht. eapply Inv_tasks; eauto. }
    destruct (upload_tasks w0); [apply triple_ret; intros; exact I | exact Hgather].
  - intros ?. apply triple_write_first_run. exact Inv_reset.
Qed.

Lemma triple_bootstrap_pass :
  triple any Inv P (bootstrap_pass H C self fs) (fun _ w => first_run w = false).
Proof.
  unfold bootstrap_pass.
  apply triple_seq; [apply triple_write_upload_tasks; auto |]. intros ?.
  apply triple_seq; [apply triple_root_directory |]. intros ?.
  apply triple_seq; [apply triple_create_folders_first |]. intros ?.
  apply triple_drain.
Qed.

Lemma triple_incremental_pass :
  triple any Inv P (incremental_pass H C self fs) (fun _ w => first_run w = false).
Proof.
  unfold incremental_pass.
  apply triple_seq; [apply triple_write_upload_tasks; auto |]. intros ?.
  apply triple_seq; [apply triple_root_directory |]. intros ?.
  apply triple_seq; [apply triple_sync_subdirectories |]. intros ?.
  apply triple_drain.
Qed.

End Passes.

(** ** Reading what a computation issued *)

Lemma issued_of_trace {C A} (m : M C A) (w : world C) (ops : list op) :
  trace (snd (m w)) = trace w ++ ops -> issued m w = ops.
Proof. intros Htr. unfold issued. rewrite Htr. apply drop_app_length. Qed.

Lemma issued_satisfy {C A} Pre Inv (P : op -> Prop) (m : M C A) Post (w : world C) :
  triple Pre Inv P m Post -> Pre w -> Inv (first_run w) (upload_tasks w) ->
  Forall P (issued m w).
Proof.
  intros Hm Hw Hi. destruct (Hm w Hw Hi) as ((ops & Htr & Hops) & _).
  rewrite (issued_of_trace _ _ _ Htr). exact Hops.
Qed.

(** ** The first-run flag *)

Section FirstRun.

Variable H : hashlib.
Variable C : cloud_api.

(** A pass that returns has cleared the flag. *)
Lemma sync_folder_clears_first_run self fs (w w1 : world C) (u : unit) :
  sync_folder H C self fs w = (Returned u, w1) -> first_run w1 = false.
Proof.
  intros Hrun. rewrite sync_folder_branch in Hrun.
  assert (Hb : triple any (fun _ _ => True) (fun _ => True)
                 (bootstrap_pass H C self fs) (fun _ w => first_run w = false))
    by (apply triple_bootstrap_pass; auto).
  assert (Hi : triple any (fun _ _ => True) (fun _ => True)
                 (incremental_pass H C self fs) (fun _ w => first_run w = false))
    by (apply triple_incremental_pass; auto).
  destruct (first_run w).
  - destruct (Hb w I I) as (_ & _ & Hpost).
    rewrite Hrun in Hpost. exact (Hpost u eq_refl).
  - destruct (Hi w I I) as (_ & _ & Hpost).
    rewrite Hrun in Hpost. exact (Hpost u eq_refl).
Qed.

(** Once the flag is cleared no call of [sync_folder] sets it again,
    whether the call returns or raises. *)
Lemma sync_folder_keeps_cleared self fs (w : world C) :
  first_run w = false -> first_run (snd (sync_folder H C self fs w)) = false.
Proof.
  intros Hw. rewrite sync_folder_branch, Hw.
  assert (Hi : triple any (fun fr _ => fr = false) (fun _ => True)
                 (incremental_pass H C self fs) (fun _ w => first_run w = false))
    by (apply triple_incremental_pass; auto).
  destruct (Hi w I Hw) as (_ & Hinv & _).
  exact Hinv.
Qed.

Lemma sync_folder_calls_keep_cleared calls (w : world C) :
  first_run w = false -> first_run (snd (sync_folder_calls H C calls w)) = false.
Proof.
  revert w. induction calls as [| [self fs] rest IH]; intros w Hw; cbn [sync_folder_calls].
  - exact Hw.
  - unfold bind. pose proof (sync_folder_keeps_cleared self fs w Hw) as Hstep.
    destruct (sync_folder H C self fs w) as [[u | e] w1]; cbn in *.
    + apply IH. exact Hstep.
    + exact Hstep.
Qed.

(** C10. The flag [first_run] belongs to the class: after any call of
    [sync_folder] has returned, whatever calls follow on whatever
    instances, the flag is cleared, and every further call of
    [sync_folder], on any instance, runs the incremental pass. *)
Theorem bootstrap_branch_runs_at_most_once
  (self : YandexDiskAPI) (fs : node) (w : world C) :
  fst (sync_folder H C self fs w) = Returned tt ->
  forall (later : list (YandexDiskAPI * node)) (self' : YandexDiskAPI) (fs' : node),
    let w1 := snd (sync_folder H C self fs w) in
    let w2 := snd (sync_folder_calls H C later w1) in
    first_run w2 = false
    /\ sync_folder H C self' fs' w2 = incremental_pass H C self' fs' w2.
Proof.
  intros Hrun later self' fs' w1 w2.
  assert (Hw2 : first_run w2 = false).
  { apply sync_folder_calls_keep_cleared.
    apply (sync_folder_clears_first_run self fs w w1 tt).
    rewrite <- Hrun. apply surjective_pairing. }
  split; [exact Hw2 |].
  rewrite sync_folder_branch, Hw2. reflexivity.
Qed.

End FirstRun.

(** ** Deletions during the bootstrap pass *)


Lemma bootstrap_branch_runs_at_most_once_witness :
  let w1 := snd (sync_folder Md5.lib (Disk.api Md5.lib)
                   Scenario.api Scenario.tree Scenario.start) in
  let w2 := snd (sync_folder_calls Md5.lib (Disk.api Md5.lib)
                   [(Scenario.api, Scenario.tree)] w1) in
  first_run w2 = false
  /\ sync_folder Md5.lib (Disk.api Md5.lib) Example.api (Dir []) w2
     = incremental_pass Md5.lib (Disk.api Md5.lib) Example.api (Dir []) w2.
Proof.
  refine (bootstrap_branch_runs_at_most_once Md5.lib (Disk.api Md5.lib)
            Scenario.api Scenario.tree Scenario.start _
            [(Scenario.api, Scenario.tree)] Example.api (Dir [])).
  vm_compute. reflexivity.
Defined.

(** ** The eligibility filter *)

Section Split.

Variable sep : ascii.

Lemma split_not_nil (s : string) : PyStr.split sep s <> [].
Proof.
  destruct s as [| c s]; cbn -[Ascii.eqb]; [discriminate |].
  destruct (Ascii.eqb c sep); [discriminate |].
  destruct (PyStr.split sep s); discriminate.
Qed.

(** Splitting a path made of two paths and a separator between them. *)
Lemma split_app (a b : string) :
  PyStr.split sep (a +:+ String sep b) = PyStr.split sep a ++ PyStr.split sep b.
Proof.
  induction a as [| c a IH].
  - change ("" +:+ String sep b) with (String sep b).
    cbn -[Ascii.eqb]. rewrite Ascii.eqb_refl. reflexivity.
  - change (String c a +:+ String sep b) with (String c (a +:+ String sep b)).
    cbn -[Ascii.eqb String.append].
    destruct (Ascii.eqb c sep); [rewrite IH; reflexivity |].
    rewrite IH. pose proof (split_not_nil a) as Hne.
    destruct (PyStr.split sep a); [contradiction | reflexivity].
Qed.

Lemma contains_app (a b : string) :
  PyStr.contains sep (a +:+ b) = PyStr.contains sep a || PyStr.contains sep b.
Proof.
  induction a as [| c a IH]; [reflexivity |].
  change (String c a +:+ b) with (String c (a +:+ b)).
  cbn -[Ascii.eqb String.append].
  rewrite IH, orb_assoc. reflexivity.
Qed.

End Split.

Lemma validate_path_join (a b : string) :
  validate_path (a +:+ "/" +:+ b) = validate_path a && validate_path b.
Proof.
  unfold validate_path.
  change ("/" +:+ b) with (String "/"%char b).
  rewrite split_app, existsb_app, contains_app.
  cbn [PyStr.contains]. change (Ascii.eqb "/" "&") with false. cbn [orb].
  destruct (existsb bad_part (PyStr.split "/" a)),
           (existsb bad_part (PyStr.split "/" b)),
           (PyStr.contains "&" a), (PyStr.contains "&" b); reflexivity.
Qed.

(** [validate_path] rejects exactly the paths that the specification calls
    ineligible. *)
Lemma validate_path_false_iff (path : string) :
  validate_path path = false <-> ineligible path.
Proof.
  unfold validate_path, ineligible, bad_part. split.
  - intros Hv.
    destruct (existsb _ _) eqn:Hbad.
    + left. apply existsb_exists in Hbad as (seg & Hin & Hseg).
      exists seg. split; [exact Hin |].
      apply orb_true_iff in Hseg as [Hseg | Hseg]; [| auto].
      apply orb_true_iff in Hseg as [Hseg | Hseg]; auto.
    + right. destruct (PyStr.contains _ _); [reflexivity | discriminate].
  - intros [(seg & Hin & Hseg) | Hamp].
    + assert (Hbad : existsb (fun part => PyStr.startswith "." part
                                || PyStr.startswith "_" part
                                || PyStr.startswith "venv" part)
                       (PyStr.split "/" path) = true).
      { apply existsb_exists. exists seg. split; [exact Hin |].
        destruct Hseg as [-> | [-> | ->]]; rewrite ?orb_true_r; reflexivity. }
      rewrite Hbad. reflexivity.
    + rewrite Hamp, andb_false_r. reflexivity.
Qed.

(** *** Normal paths *)

Lemma append_nil_l (s : string) : "" +:+ s = s.
Proof. reflexivity. Qed.

Lemma append_cons (c : ascii) (s t : string) : String c s +:+ t = String c (s +:+ t).
Proof. reflexivity. Qed.

Lemma split_whole (sep : ascii) (s : string) :
  PyStr.contains sep s = false -> PyStr.split sep s = [s].
Proof.
  induction s as [| c s IH]; [reflexivity |].
  cbn -[Ascii.eqb]. rewrite Ascii.eqb_sym.
  destruct (Ascii.eqb sep c) eqn:Hc; cbn [orb]; [discriminate |].
  intros Hs. rewrite (IH Hs). reflexivity.
Qed.

Lemma split_parts (sep : ascii) (s : string) :
  Forall (fun c => PyStr.contains sep c = false) (PyStr.split sep s).
Proof.
  induction s as [| c s IH]; cbn -[Ascii.eqb].
  - constructor; [reflexivity | constructor].
  - destruct (Ascii.eqb c sep) eqn:Hc.
    + constructor; [reflexivity | exact IH].
    + destruct (PyStr.split sep s) as [| p ps]; [repeat constructor; cbn -[Ascii.eqb]; rewrite Hc; reflexivity |].
      inversion IH as [| ? ? Hp Hps]; subst.
      constructor; [| exact Hps]. cbn -[Ascii.eqb]. rewrite Hc. exact Hp.
Qed.

Lemma split_join (cs : list string) :
  cs <> [] -> Forall (fun c => PyStr.contains "/"%char c = false) cs ->
  PyStr.split "/"%char (PyStr.join "/" cs) = cs.
Proof.
  induction cs as [| c cs IH]; [contradiction |]. intros _ Hcs.
  inversion Hcs as [| ? ? Hc Hrest]; subst.
  destruct cs as [| c' cs].
  - cbn [PyStr.join]. apply split_whole. exact Hc.
  - change (PyStr.join "/" (c :: c' :: cs)) with (c +:+ String "/"%char (PyStr.join "/" (c' :: cs))).
    rewrite split_app, (split_whole _ _ Hc), IH; [reflexivity | discriminate | exact Hrest].
Qed.

Lemma eqb_true (a b : string) : PyStr.eqb a b = true <-> a = b.
Proof. apply String.eqb_eq. Qed.

Lemma eqb_false (a b : string) : PyStr.eqb a b = false <-> a <> b.
Proof. apply String.eqb_neq. Qed.

Lemma parents_only (stack : list string) :
  forallb PosixPath.is_parent stack = true -> PosixPath.parents_at_bottom 0 stack = true.
Proof.
  destruct stack as [| c below]; [reflexivity |]. cbn.
  intros Hall. apply andb_true_iff in Hall as [-> Hbelow]. exact Hbelow.
Qed.

Lemma normal_below (slashes : nat) (c : string) (below : list string) :
  PosixPath.normal slashes (c :: below) = true -> PosixPath.normal slashes below = true.
Proof.
  unfold PosixPath.normal. cbn [forallb PosixPath.parents_at_bottom]. intros Hn.
  apply andb_true_iff in Hn as [Hclean Hpar].
  apply andb_true_iff in Hclean as [_ Hclean]. rewrite Hclean. cbn [andb].
  destruct (PosixPath.is_parent c); [| exact Hpar].
  apply andb_true_iff in Hpar as [Hk Hall].
  apply Nat.eqb_eq in Hk as ->. apply parents_only. exact Hall.
Qed.

(** One turn of the loop keeps the stack normal. *)
Lemma norm_step_normal (slashes : nat) (stack : list string) (comp : string) :
  PyStr.contains "/"%char comp = false ->
  PosixPath.normal slashes stack = true ->
  PosixPath.normal slashes (PosixPath.norm_step slashes stack comp) = true.
Proof.
  intros Hsep Hn. unfold PosixPath.norm_step.
  destruct (PyStr.eqb comp "") eqn:Hempty; [exact Hn |].
  destruct (PyStr.eqb comp ".") eqn:Hdot; [exact Hn |]. cbn [orb].
  assert (Hclean : PosixPath.clean comp = true) by (unfold PosixPath.clean; rewrite Hempty, Hdot, Hsep; reflexivity).
  destruct (PyStr.eqb comp "..") eqn:Hpar; cbn [negb orb].
  - destruct stack as [| top below].
    + destruct (Nat.eqb slashes 0) eqn:Hk; cbn [andb orb]; [| reflexivity].
      unfold PosixPath.normal. cbn [forallb PosixPath.parents_at_bottom]. unfold PosixPath.is_parent.
      rewrite Hclean, Hpar, Hk. reflexivity.
    + rewrite andb_false_r. cbn [orb].
      destruct (PyStr.eqb top "..") eqn:Htop.
      * unfold PosixPath.normal in *. cbn [forallb PosixPath.parents_at_bottom] in *. unfold PosixPath.is_parent in *.
        rewrite Hclean, Hpar. rewrite Htop in *. cbn [andb] in *.
        apply andb_true_iff in Hn as [Hcl Hp]. rewrite Hcl.
        apply andb_true_iff in Hp as [-> Hall]. rewrite Hall. reflexivity.
      * eapply normal_below. exact Hn.
  - unfold PosixPath.normal in *. cbn [forallb PosixPath.parents_at_bottom]. unfold PosixPath.is_parent.
    rewrite Hclean, Hpar. exact Hn.
Qed.

Lemma fold_norm_step_normal (slashes : nat) (comps stack : list string) :
  Forall (fun c => PyStr.contains "/"%char c = false) comps ->
  PosixPath.normal slashes stack = true ->
  PosixPath.normal slashes (fold_left (PosixPath.norm_step slashes) comps stack) = true.
Proof.
  intros Hcomps. revert stack.
  induction Hcomps as [| c comps Hc _ IH]; intros stack Hn; cbn [fold_left]; [exact Hn |].
  apply IH. apply norm_step_normal; assumption.
Qed.

(** The loop run on the components of a normal stack rebuilds it. *)
Lemma fold_norm_step_rebuilds (slashes : nat) (stack : list string) :
  PosixPath.normal slashes stack = true ->
  fold_left (PosixPath.norm_step slashes) (rev stack) [] = stack.
Proof.
  induction stack as [| c below IH]; intros Hn; [reflexivity |].
  cbn [rev]. rewrite fold_left_app. cbn [fold_left].
  rewrite (IH (normal_below _ _ _ Hn)).
  unfold PosixPath.normal in Hn. cbn [forallb PosixPath.parents_at_bottom] in Hn.
  apply andb_true_iff in Hn as [Hclean Hpar].
  apply andb_true_iff in Hclean as [Hc _]. unfold PosixPath.clean in Hc.
  apply andb_true_iff in Hc as [Hc _]. apply andb_true_iff in Hc as [Hempty Hdot].
  apply negb_true_iff in Hempty, Hdot.
  unfold PosixPath.norm_step. rewrite Hempty, Hdot. cbn [orb].
  unfold PosixPath.is_parent in Hpar. destruct (PyStr.eqb c "..") eqn:Hc; [| reflexivity].
  apply andb_true_iff in Hpar as [-> Hall]. cbn [negb orb andb].
  destruct below as [| top below']; [reflexivity |].
  cbn [forallb] in Hall. apply andb_true_iff in Hall as [Htop _].
  unfold PosixPath.is_parent in Htop. rewrite Htop. reflexivity.
Qed.

Lemma join_not_slash (cs : list string) :
  forallb PosixPath.clean cs = true -> PyStr.startswith "/" (PyStr.join "/" cs) = false.
Proof.
  destruct cs as [| c cs]; [reflexivity |]. cbn [forallb]. intros Hcs.
  apply andb_true_iff in Hcs as [Hc _]. unfold PosixPath.clean in Hc.
  apply andb_true_iff in Hc as [Hc Hsep]. apply andb_true_iff in Hc as [Hempty _].
  apply negb_true_iff in Hempty, Hsep.
  destruct c as [| a c]; [discriminate Hempty |].
  cbn -[Ascii.eqb] in Hsep. apply orb_false_iff in Hsep as [Ha _].
  assert (Hhead : forall t, PyStr.startswith "/" (String a t) = false).
  { intros t. cbn -[Ascii.eqb]. rewrite Ascii.eqb_sym, Ha. reflexivity. }
  destruct cs; [apply Hhead |]. cbn [PyStr.join]. rewrite append_cons. apply Hhead.
Qed.

Lemma forallb_rev {A} (f : A -> bool) (l : list A) : forallb f (rev l) = forallb f l.
Proof.
  induction l as [| x l IH]; [reflexivity |]. cbn [rev forallb].
  rewrite forallb_app, IH. cbn. rewrite andb_true_r. apply andb_comm.
Qed.

Lemma clean_no_sep (cs : list string) :
  forallb PosixPath.clean cs = true -> Forall (fun c => PyStr.contains "/"%char c = false) cs.
Proof.
  intros Hcs. apply List.Forall_forall. intros c Hin.
  rewrite forallb_forall in Hcs. specialize (Hcs c Hin). unfold PosixPath.clean in Hcs.
  apply andb_true_iff in Hcs as [_ Hsep]. apply negb_true_iff in Hsep. exact Hsep.
Qed.

(** [normpath] leaves alone a path made of a normal stack under its
    leading slashes. *)
Lemma normpath_of_normal (slashes : nat) (stack : list string) :
  slashes <= 2 -> PosixPath.normal slashes stack = true ->
  let joined := PosixPath.slashes_prefix slashes +:+ PyStr.join "/" (rev stack) in
  PyStr.truthy joined = true -> PosixPath.normpath joined = joined.
Proof.
  intros Hk Hn joined Hjoined.
  assert (Hclean : forallb PosixPath.clean (rev stack) = true).
  { rewrite forallb_rev. unfold PosixPath.normal in Hn. apply andb_true_iff in Hn as [Hc _]. exact Hc. }
  pose proof (join_not_slash _ Hclean) as Hstart.
  assert (Hslashes : PosixPath.initial_slashes joined = slashes).
  { unfold joined, PosixPath.initial_slashes.
    destruct slashes as [| [| [| k]]]; [| | | lia]; cbn [PosixPath.slashes_prefix].
    - rewrite append_nil_l, Hstart. reflexivity.
    - rewrite append_cons, append_nil_l.
      destruct (PyStr.join "/" (rev stack)) as [| a t]; [reflexivity |].
      cbn -[Ascii.eqb] in *. destruct (Ascii.eqb "/" a); [discriminate | reflexivity].
    - rewrite !append_cons, append_nil_l.
      destruct (PyStr.join "/" (rev stack)) as [| a t]; [reflexivity |].
      cbn -[Ascii.eqb] in *. destruct (Ascii.eqb "/" a); [discriminate | reflexivity]. }
  assert (Hfold : fold_left (PosixPath.norm_step slashes)
                    (PyStr.split PosixPath.sep joined) [] = stack).
  { assert (Hbody : fold_left (PosixPath.norm_step slashes)
                      (PyStr.split "/"%char (PyStr.join "/" (rev stack))) [] = stack).
    { destruct stack as [| c below] eqn:Hstack; [reflexivity |]. rewrite <- Hstack in *.
      rewrite split_join.
      - apply fold_norm_step_rebuilds. exact Hn.
      - rewrite Hstack. cbn [rev]. destruct (rev below); discriminate.
      - apply clean_no_sep. exact Hclean. }
    unfold joined, PosixPath.sep.
    destruct slashes as [| [| [| k]]]; [| | | lia]; cbn [PosixPath.slashes_prefix].
    - exact Hbody.
    - rewrite append_cons, append_nil_l. cbn [PyStr.split].
      change (Ascii.eqb "/" "/") with true. cbn [fold_left]. exact Hbody.
    - rewrite !append_cons, append_nil_l. cbn [PyStr.split].
      change (Ascii.eqb "/" "/") with true. cbn [fold_left]. exact Hbody. }
  unfold PosixPath.normpath.
  destruct (PyStr.eqb joined "") eqn:Hempty.
  { apply eqb_true in Hempty. rewrite Hempty in Hjoined. discriminate. }
  cbv zeta. rewrite Hslashes, Hfold. fold joined. rewrite Hjoined. reflexivity.
Qed.

Lemma initial_slashes_le (path : string) : PosixPath.initial_slashes path <= 2.
Proof.
  unfold PosixPath.initial_slashes.
  destruct (PyStr.startswith "/" path); [| lia].
  destruct (_ && _); lia.
Qed.

(** What [normpath] returns: a dot, or a normal stack under its leading
    slashes. *)
Lemma normpath_shape (path : string) :
  PosixPath.normpath path = "."
  \/ exists slashes stack,
       slashes <= 2 /\ PosixPath.normal slashes stack = true
       /\ PyStr.truthy (PosixPath.slashes_prefix slashes +:+ PyStr.join "/" (rev stack)) = true
       /\ PosixPath.normpath path
          = PosixPath.slashes_prefix slashes +:+ PyStr.join "/" (rev stack).
Proof.
  unfold PosixPath.normpath.
  destruct (PyStr.eqb path ""); [left; reflexivity |]. cbv zeta.
  destruct (PyStr.truthy _) eqn:Htruthy; [right | left; reflexivity].
  exists (PosixPath.initial_slashes path),
         (fold_left (PosixPath.norm_step (PosixPath.initial_slashes path))
            (PyStr.split PosixPath.sep path) []).
  repeat split.
  - apply initial_slashes_le.
  - apply fold_norm_step_normal; [apply split_parts | reflexivity].
  - exact Htruthy.
Qed.

(** [os.path.normpath] is idempotent. *)
Lemma normpath_idempotent (path : string) :
  PosixPath.normpath (PosixPath.normpath path) = PosixPath.normpath path.
Proof.
  destruct (normpath_shape path) as [-> | (slashes & stack & Hk & Hn & Htruthy & ->)].
  - reflexivity.
  - apply normpath_of_normal; assumption.
Qed.

Lemma replace_absent (a b : ascii) (s : string) :
  PyStr.contains a s = false -> PyStr.replace a b s = s.
Proof.
  induction s as [| c s IH]; [reflexivity |]. cbn -[Ascii.eqb].
  intros Hs. apply orb_false_iff in Hs as [-> Hs]. rewrite (IH Hs). reflexivity.
Qed.

Lemma contains_split (b sep : ascii) (s : string) :
  PyStr.contains b s = false ->
  Forall (fun c => PyStr.contains b c = false) (PyStr.split sep s).
Proof.
  induction s as [| c s IH]; cbn -[Ascii.eqb]; intros Hs.
  - constructor; [reflexivity | constructor].
  - apply orb_false_iff in Hs as [Hc Hs]. specialize (IH Hs).
    destruct (Ascii.eqb c sep).
    + constructor; [reflexivity | exact IH].
    + destruct (PyStr.split sep s) as [| p ps].
      * constructor; [| constructor]. cbn -[Ascii.eqb]. rewrite Hc. reflexivity.
      * inversion IH as [| ? ? Hp Hps]; subst.
        constructor; [| exact Hps]. cbn -[Ascii.eqb]. rewrite Hc. exact Hp.
Qed.

Lemma norm_step_Forall (Q : string -> Prop) (slashes : nat)
  (stack : list string) (comp : string) :
  Q comp -> Forall Q stack -> Forall Q (PosixPath.norm_step slashes stack comp).
Proof.
  intros Hc Hs. unfold PosixPath.norm_step.
  destruct (_ || _); [exact Hs |].
  destruct (_ || _); [constructor; assumption |].
  destruct Hs; [constructor | assumption].
Qed.

Lemma fold_norm_step_Forall (Q : string -> Prop) (slashes : nat)
  (comps stack : list string) :
  Forall Q comps -> Forall Q stack ->
  Forall Q (fold_left (PosixPath.norm_step slashes) comps stack).
Proof.
  intros Hcomps. revert stack.
  induction Hcomps as [| c comps Hc _ IH]; intros stack Hs; cbn [fold_left]; [exact Hs |].
  apply IH. apply norm_step_Forall; assumption.
Qed.

Lemma contains_join (b : ascii) (cs : list string) :
  Ascii.eqb "/" b = false ->
  Forall (fun c => PyStr.contains b c = false) cs ->
  PyStr.contains b (PyStr.join "/" cs) = false.
Proof.
  intros Hb Hcs. induction Hcs as [| c cs Hc Hcs IH]; [reflexivity |].
  destruct cs as [| c' cs]; [exact Hc |].
  change (PyStr.join "/" (c :: c' :: cs))
    with (c +:+ String "/"%char (PyStr.join "/" (c' :: cs))).
  rewrite contains_app, Hc. cbn -[Ascii.eqb]. rewrite Hb. exact IH.
Qed.

(** A path without a backslash is normalised without one. *)
Lemma normpath_no_backslash (path : string) :
  PyStr.contains backslash path = false ->
  PyStr.contains backslash (PosixPath.normpath path) = false.
Proof.
  intros Hpath. unfold PosixPath.normpath.
  destruct (PyStr.eqb path ""); [reflexivity |]. cbv zeta.
  destruct (PyStr.truthy _); [| reflexivity].
  rewrite contains_app. apply orb_false_iff. split.
  - destruct (PosixPath.initial_slashes path) as [| [| k]]; reflexivity.
  - apply contains_join; [reflexivity |].
    apply Forall_rev, fold_norm_step_Forall; [| constructor].
    apply contains_split. exact Hpath.
Qed.

Lemma sanitize_path_without_backslash (path : string) :
  PyStr.contains backslash path = false -> sanitize_path path = PosixPath.normpath path.
Proof.
  intros Hpath. unfold sanitize_path.
  apply replace_absent, normpath_no_backslash. exact Hpath.
Qed.

(** X2. On the paths that hold no backslash, [sanitize_path] applied twice
    gives what it gives applied once. *)
Lemma sanitize_path_idempotent_without_backslash (path : string) :
  PyStr.contains backslash path = false ->
  sanitize_path (sanitize_path path) = sanitize_path path.
Proof.
  intros Hpath.
  rewrite (sanitize_path_without_backslash path Hpath).
  rewrite sanitize_path_without_backslash by (apply normpath_no_backslash; exact Hpath).
  apply normpath_idempotent.
Qed.






Lemma split_cons (sep : ascii) (s : string) :
  PyStr.split sep s = hd "" (PyStr.split sep s) :: tl (PyStr.split sep s).
Proof.
  pose proof (split_not_nil sep s) as Hne.
  destruct (PyStr.split sep s); [contradiction | reflexivity].
Qed.

Lemma startswith_before_backslash (p s : string) :
  PyStr.contains backslash p = false ->
  PyStr.startswith p s = true -> PyStr.startswith p (PyStr.before backslash s) = true.
Proof.
  revert s. induction p as [| a p IH]; intros s Hp Hs; [reflexivity |].
  destruct s as [| b s]; [discriminate Hs |].
  cbn -[Ascii.eqb] in *. apply orb_false_iff in Hp as [Ha Hp].
  apply andb_true_iff in Hs as [Hab Hs]. apply Ascii.eqb_eq in Hab as <-.
  rewrite Ha. cbn -[Ascii.eqb]. rewrite Ascii.eqb_refl. cbn [andb]. apply IH; assumption.
Qed.

Lemma bad_part_before_backslash (part : string) :
  bad_part part = true -> bad_part (PyStr.before backslash part) = true.
Proof.
  unfold bad_part. intros Hbad.
  apply orb_true_iff in Hbad as [Hbad | Hbad];
    [apply orb_true_iff in Hbad as [Hbad | Hbad] |];
    apply startswith_before_backslash in Hbad; try reflexivity;
    rewrite Hbad, ?orb_true_r; reflexivity.
Qed.

(** Replacing the backslashes cuts the first part at its first backslash
    and keeps every bad part among the others. *)
Lemma split_replace_backslash (s : string) :
  hd "" (PyStr.split "/"%char (PyStr.replace backslash "/"%char s))
  = PyStr.before backslash (hd "" (PyStr.split "/"%char s))
  /\ (existsb bad_part (tl (PyStr.split "/"%char s)) = true ->
      existsb bad_part (tl (PyStr.split "/"%char (PyStr.replace backslash "/"%char s))) = true).
Proof.
  induction s as [| c s [IHhd IHtl]]; [split; [reflexivity | discriminate] |].
  cbn [PyStr.replace PyStr.split].
  rewrite (split_cons "/"%char s) in *.
  rewrite (split_cons "/"%char (PyStr.replace backslash "/"%char s)) in *.
  cbn [hd tl] in *.
  destruct (Ascii.eqb c backslash) eqn:Hback.
  - apply Ascii.eqb_eq in Hback as ->.
    change (Ascii.eqb backslash "/") with false. change (Ascii.eqb "/" "/") with true.
    cbn [hd tl PyStr.before]. change (Ascii.eqb backslash backslash) with true.
    split; [reflexivity |]. intros Htl. cbn [existsb].
    rewrite (IHtl Htl). apply orb_true_r.
  - destruct (Ascii.eqb c "/") eqn:Hsep; cbn [hd tl].
    + split; [reflexivity |]. cbn [existsb]. intros Hbad.
      apply orb_true_iff in Hbad as [Hbad | Hbad].
      * rewrite IHhd, (bad_part_before_backslash _ Hbad). reflexivity.
      * rewrite (IHtl Hbad). apply orb_true_r.
    + split; [| exact IHtl]. cbn [PyStr.before]. rewrite Hback, IHhd. reflexivity.
Qed.

Lemma contains_replace (a b c : ascii) (s : string) :
  Ascii.eqb a c = false -> Ascii.eqb b c = false ->
  PyStr.contains c (PyStr.replace a b s) = PyStr.contains c s.
Proof.
  intros Ha Hb. induction s as [| x s IH]; [reflexivity |].
  cbn -[Ascii.eqb]. rewrite IH. destruct (Ascii.eqb x a) eqn:Hx; [| reflexivity].
  apply Ascii.eqb_eq in Hx as ->. rewrite Ha, Hb. reflexivity.
Qed.

(** A path that [validate_path] accepts once its backslashes are
    replaced is a path that it accepts. *)
Lemma validate_path_replace_backslash (path : string) :
  validate_path (PyStr.replace backslash "/"%char path) = true ->
  validate_path path = true.
Proof.
  unfold validate_path. rewrite contains_replace by reflexivity.
  destruct (PyStr.contains "&" path); [rewrite andb_false_r; discriminate |].
  rewrite !andb_true_r.
  destruct (split_replace_backslash path) as [Hhd Htl].
  rewrite (split_cons "/"%char path), (split_cons "/"%char (PyStr.replace _ _ path)).
  cbn [existsb]. rewrite Hhd.
  destruct (bad_part (hd "" (PyStr.split "/" path))) eqn:Hbad.
  - rewrite (bad_part_before_backslash _ Hbad). discriminate.
  - destruct (existsb bad_part (tl (PyStr.split "/" path))) eqn:Hrest; [| reflexivity].
    rewrite (Htl eq_refl), orb_true_r. discriminate.
Qed.

Lemma no_parents_at_bottom (slashes : nat) (stack : list string) :
  forallb (fun c => negb (PosixPath.is_parent c)) stack = true ->
  PosixPath.parents_at_bottom slashes stack = true.
Proof.
  induction stack as [| c below IH]; [reflexivity |]. cbn [forallb PosixPath.parents_at_bottom].
  intros Hall. apply andb_true_iff in Hall as [Hc Hbelow].
  apply negb_true_iff in Hc. rewrite Hc. apply IH. exact Hbelow.
Qed.

(** The relative path of a directory whose names are well formed is
    normal already. *)
Lemma normpath_relpath (root : list string) :
  forallb Os.name_ok root = true -> root <> [] ->
  PosixPath.normpath (Os.relpath root) = Os.relpath root.
Proof.
  intros Hroot Hne.
  assert (Hrel : Os.relpath root
                 = PosixPath.slashes_prefix 0 +:+ PyStr.join "/" (rev (rev root))).
  { rewrite rev_involutive. destruct root; [contradiction | reflexivity]. }
  rewrite Hrel. apply normpath_of_normal; [lia | |].
  - unfold PosixPath.normal. apply andb_true_iff. split.
    + rewrite forallb_rev. apply forallb_forall. intros c Hc.
      rewrite forallb_forall in Hroot. specialize (Hroot c Hc).
      unfold Os.name_ok in Hroot. apply andb_true_iff in Hroot as [Hclean _]. exact Hclean.
    + apply no_parents_at_bottom. rewrite forallb_rev. apply forallb_forall. intros c Hc.
      rewrite forallb_forall in Hroot. specialize (Hroot c Hc).
      unfold Os.name_ok in Hroot. apply andb_true_iff in Hroot as [_ Hpar]. exact Hpar.
  - rewrite <- Hrel. destruct root as [| c root]; [contradiction |].
    cbn [forallb] in Hroot. apply andb_true_iff in Hroot as [Hc _].
    unfold Os.name_ok, PosixPath.clean in Hc. destruct c as [| a c]; [discriminate Hc |].
    cbn [Os.relpath PyStr.join]. destruct root; reflexivity.
Qed.

Lemma validate_path_sanitized_relpath (root : list string) :
  forallb Os.name_ok root = true -> root <> [] ->
  validate_path (sanitize_path (Os.relpath root)) = true ->
  validate_path (Os.relpath root) = true.
Proof.
  intros Hroot Hne. unfold sanitize_path. rewrite normpath_relpath by assumption.
  apply validate_path_replace_backslash.
Qed.

Lemma append_assoc (a b c : string) : (a +:+ b) +:+ c = a +:+ b +:+ c.
Proof.
  induction a as [| x a IH]; [reflexivity |].
  rewrite !append_cons, IH. reflexivity.
Qed.

Lemma join_snoc (sep : string) (cs : list string) (x : string) :
  cs <> [] -> PyStr.join sep (cs ++ [x]) = PyStr.join sep cs +:+ sep +:+ x.
Proof.
  induction cs as [| c cs IH]; [contradiction |]. intros _.
  destruct cs as [| c' cs]; [reflexivity |].
  change (PyStr.join sep ((c :: c' :: cs) ++ [x]))
    with (c +:+ sep +:+ PyStr.join sep ((c' :: cs) ++ [x])).
  rewrite IH by discriminate.
  change (PyStr.join sep (c :: c' :: cs)) with (c +:+ sep +:+ PyStr.join sep (c' :: cs)).
  rewrite !append_assoc. reflexivity.
Qed.

Lemma relpath_file (root : list string) (file : string) :
  root <> [] -> Os.relpath (root ++ [file]) = Os.relpath root +:+ "/" +:+ file.
Proof.
  intros Hne. unfold Os.relpath.
  destruct (root ++ [file]) eqn:Happ; [destruct root; discriminate |].
  rewrite <- Happ, join_snoc by exact Hne.
  destruct root; [contradiction | reflexivity].
Qed.

Lemma node_induction (P : node -> Prop) :
  (forall content, P (File content)) ->
  (forall entries, Forall (fun e => P (snd e)) entries -> P (Dir entries)) ->
  forall n, P n.
Proof.
  intros HF HD. fix IH 1. intros [content | entries]; [apply HF |].
  apply HD. induction entries as [| [name child] entries IHe]; constructor;
    [apply IH | exact IHe].
Qed.

(** Every directory that [os.walk] yields is named by well-formed names. *)
Lemma walk_names_ok (fs : node) :
  Os.well_formed fs = true ->
  forall top root dirs files,
    forallb Os.name_ok top = true ->
    In (root, dirs, files) (Os.walk top fs) -> forallb Os.name_ok root = true.
Proof.
  induction fs as [content | entries IH] using node_induction;
    intros Hwf top root dirs files Htop Hin; [contradiction |].
  cbn [Os.walk] in Hin. destruct Hin as [[= <- _ _] | Hin]; [exact Htop |].
  cbn [Os.well_formed] in Hwf.
  induction entries as [| [name child] entries IHe]; [contradiction |].
  inversion IH as [| ? ? Hchild Hrest]; subst. cbn [snd] in Hchild.
  apply andb_true_iff in Hwf as [Hwf Hothers].
  apply andb_true_iff in Hwf as [Hname Hsub].
  apply in_app_or in Hin as [Hin | Hin].
  - apply (Hchild Hsub (top ++ [name]) root dirs files); [| exact Hin].
    rewrite forallb_app, Htop. cbn. rewrite Hname. reflexivity.
  - apply IHe; assumption.
Qed.

Section Eligibility.

Variable H : hashlib.
Variable C : cloud_api.

(** Every folder the engine creates below the root has a relative path
    that [validate_path] accepts, and so has every file it uploads. *)
Lemma sync_folder_issues_eligible (self : YandexDiskAPI) (fs : node) (w : world C) :
  Os.well_formed fs = true ->
  Forall eligible_op (issued (sync_folder H C self fs) w).
Proof.
  intros Hwf.
  set (Inv := fun (_ : bool) (l : list (list string * string)) =>
                Forall (fun t => validate_path (Os.relpath (fst t)) = true) l).
  assert (Hqueue_root : forall (fr : bool) l file,
            Inv fr l -> validate_path file = true ->
            Inv fr (l ++ [([] ++ [file], get_full_path self None (Some file))])).
  { intros fr l file Hl Hfile. apply Forall_app. split; [exact Hl |].
    constructor; [exact Hfile | constructor]. }
  assert (Hqueue_sub : forall (fr : bool) l root file,
            walked fs root ->
            root <> [] -> validate_path (sanitize_path (Os.relpath root)) = true ->
            Inv fr l -> validate_path file = true ->
            Inv fr (l ++ [(root ++ [file],
                           get_full_path self (Some (sanitize_path (Os.relpath root)))
                             (Some file))])).
  { intros fr l root file (dirs & files & Hwalk) Hroot Hdir Hl Hfile.
    apply Forall_app. split; [exact Hl |].
    constructor; [| constructor]. cbn [fst].
    rewrite relpath_file by exact Hroot.
    rewrite validate_path_join, Hfile, andb_true_r.
    apply validate_path_sanitized_relpath; [| exact Hroot | exact Hdir].
    exact (walk_names_ok fs Hwf [] root dirs files eq_refl Hwalk). }
  assert (Htasks : forall (fr : bool) l t,
            Inv fr l -> In t l -> eligible_op (Upload (fst t) (snd t))).
  { intros fr l t Hl Ht. unfold Inv in Hl. rewrite List.Forall_forall in Hl.
    exact (Hl t Ht). }
  assert (Hfresh : forall (fr : bool) (l : list (list string * string)),
            Inv fr l -> Inv fr []) by (intros; constructor).
  assert (Hreset : forall (fr : bool) (l : list (list string * string)),
            Inv fr l -> Inv false l) by (intros fr l Hl; exact Hl).
  assert (Hcreate : forall root,
            walked fs root -> validate_path (sanitize_path (Os.relpath root)) = true ->
            eligible_op (CreateFolder (Some (sanitize_path (Os.relpath root)))))
    by (intros root _ Hp; exact Hp).
  rewrite issued_sync_folder_fresh_queue.
  unfold issued. rewrite sync_folder_branch. cbn [first_run].
  destruct (first_run w).
  - refine (issued_satisfy any Inv eligible_op _ _ _ _ I _); [| constructor].
    apply triple_bootstrap_pass; solve [assumption | intros; exact I].
  - refine (issued_satisfy any Inv eligible_op _ _ _ _ I _); [| constructor].
    apply triple_incremental_pass; solve [assumption | intros; exact I].
Qed.

(** C8. A path that holds a segment starting with a dot, an underscore
    or [venv], or that holds an ampersand, is never the relative path
    under which the engine creates a folder, nor the path, relative to the
    local folder, of a file that it uploads, in a bootstrap pass or in an
    incremental one. The names in the local tree are those a directory
    listing can give. *)
Theorem ineligible_path_is_never_created_nor_uploaded
  (self : YandexDiskAPI) (fs : node) (w : world C) (path : string) :
  Os.well_formed fs = true ->
  ineligible path ->
  ~ In (CreateFolder (Some path)) (issued (sync_folder H C self fs) w)
  /\ forall file_path remote_path,
       In (Upload file_path remote_path) (issued (sync_folder H C self fs) w) ->
       Os.relpath file_path <> path.
Proof.
  intros Hwf Hbad. apply validate_path_false_iff in Hbad.
  pose proof (sync_folder_issues_eligible self fs w Hwf) as Hall.
  rewrite List.Forall_forall in Hall. split.
  - intros Hin. apply Hall in Hin. cbn in Hin. congruence.
  - intros file_path remote_path Hin Heq. apply Hall in Hin. cbn in Hin. congruence.
Qed.

End Eligibility.

Lemma ineligible_dot_git : ineligible ".git".
Proof. left. exists ".git". split; [left; reflexivity | left; reflexivity]. Qed.

Lemma ineligible_path_is_never_created_nor_uploaded_witness :
  let fs := Dir [(".git", Dir [("config", File (Some [x61]))]);
                 ("src", Dir [("a&b.txt", File (Some [x62]))])] in
  let w := Example.seasoned (Disk.api Md5.lib) Disk.empty in
  ~ In (CreateFolder (Some ".git"))
      (issued (sync_folder Md5.lib (Disk.api Md5.lib) Example.api fs) w)
  /\ forall file_path remote_path,
       In (Upload file_path remote_path)
         (issued (sync_folder Md5.lib (Disk.api Md5.lib) Example.api fs) w) ->
       Os.relpath file_path <> ".git".
Proof.
  exact (ineligible_path_is_never_created_nor_uploaded Md5.lib
           (Disk.api Md5.lib) Example.api
           (Dir [(".git", Dir [("config", File (Some [x61]))]);
                 ("src", Dir [("a&b.txt", File (Some [x62]))])])
           (Example.seasoned (Disk.api Md5.lib) Disk.empty)
           ".git" eq_refl ineligible_dot_git).
Defined.

(** ** What one directory task issues *)

Section Directory.

Variable H : hashlib.
Variable C : cloud_api.
Variable self : YandexDiskAPI.

Lemma bind_returned {A B} (m : M C A) (k : A -> M C B) (w w1 : world C) (a : A) :
  m w = (Returned a, w1) -> bind C m k w = k a w1.
Proof. intros Hm. unfold bind. rewrite Hm. reflexivity. Qed.









End Directory.


(** The hidden file of the cloud folder goes with the plain one. *)
Example excluded_name_is_deleted :
  deletes (issued (sync_directory Md5.lib (Disk.api Md5.lib)
                     Example.api (Dir [("keep.txt", File (Some [x61]))]) [] None)
             (Example.seasoned (Disk.api Md5.lib) Example.mixed_disk))
  = ["backup/gone.txt"; "backup/.hidden"]
  /\ validate_path ".hidden" = false.
Proof. split; vm_compute; reflexivity. Qed.

(** ** The outcome of [delete] *)

(** C5, amended. [delete] reports success exactly when the cloud answers
    200, 202 or 204; for any other status, the 404 of a path that does
    not exist included, it reports failure. *)
Theorem delete_reports_success_on_2xx_only
  (C : cloud_api) (self : YandexDiskAPI) (remote_path_to_file : string) (w : world C) :
  fst (delete C self remote_path_to_file w)
  = Returned (status_in
                (status (fst (serve C (DeleteResource remote_path_to_file) (cloud w))))
                [200; 202; 204]%Z).
Proof.
  unfold delete, bind, log, send. cbn -[status_in].
  destruct (serve C _ (cloud w)) as [r c1]. cbn -[status_in].
  destruct (status_in _ _); reflexivity.
Qed.

(** C5, as stated, fails: the cloud answers 404 for a path it does not
    hold, and [delete] returns [False]. *)
Lemma delete_of_absent_path_reports_failure :
  status (fst (serve (Disk.api Md5.lib) (DeleteResource "backup/ghost.txt")
                 Disk.empty)) = 404%Z
  /\ fst (delete (Disk.api Md5.lib) Example.api "backup/ghost.txt"
            (Example.seasoned (Disk.api Md5.lib) Disk.empty))
     = Returned false.
Proof. split; vm_compute; reflexivity. Qed.

(** ** The outcome of [get_info] *)

(** C6, amended. [get_info] turns every answer other than 200 into the
    same [FileNotFoundError] on the path: the caller cannot tell a folder
    that does not exist from any other failed answer. *)
Theorem get_info_raises_not_found_on_every_failure
  (C : cloud_api) (self : YandexDiskAPI) (remote_dir_path : string) (w : world C) :
  status (fst (serve C (GetResource remote_dir_path) (cloud w))) <> 200%Z ->
  fst (get_info C self remote_dir_path w) = Raised (FileNotFoundError remote_dir_path).
Proof.
  intros Hstatus. unfold get_info, bind, log, send. cbn -[Z.eqb].
  destruct (serve C _ (cloud w)) as [r c1]. cbn -[Z.eqb] in *.
  destruct (Z.eqb_spec (status r) 200); [contradiction | reflexivity].
Qed.

Lemma get_info_raises_not_found_on_every_failure_witness :
  fst (get_info (Example.always (Response 500 [] None)) Example.api "backup"
         (Example.seasoned (Example.always (Response 500 [] None)) tt))
  = Raised (FileNotFoundError "backup").
Proof.
  refine (get_info_raises_not_found_on_every_failure
            (Example.always (Response 500 [] None)) Example.api "backup"
            (Example.seasoned (Example.always (Response 500 [] None)) tt) _).
  vm_compute. discriminate.
Defined.

(** C6, as stated, fails: a server error (500) and a folder that does not
    exist (404) give the caller the same outcome. *)
Lemma server_error_is_reported_as_not_found :
  fst (get_info (Example.always (Response 500 [] None)) Example.api "backup"
         (Example.seasoned (Example.always (Response 500 [] None)) tt))
  = fst (get_info (Example.always (Response 404 [] None)) Example.api "backup"
           (Example.seasoned (Example.always (Response 404 [] None)) tt)).
Proof. vm_compute. reflexivity. Qed.

(** ** A file that cannot be read *)

(** [get_file_hash] does not raise: it returns [None] for a file that
    cannot be read. *)
Lemma get_file_hash_of_unreadable (H : hashlib) (fs : node) (filepath : list string) :
  Os.read_bytes fs filepath = None -> get_file_hash H fs filepath = None.
Proof. intros Hread. unfold get_file_hash. rewrite Hread. reflexivity. Qed.

(** C4 on the code: the local file [a.txt] cannot be read and the cloud
    holds [backup/a.txt]. The fingerprint is [None], it is compared with
    the digest of the cloud, the upload is queued and issued, and opening
    the file raises out of [sync_folder]. *)
Lemma unreadable_file_with_remote_entry_is_uploaded :
  let fs := Dir [("a.txt", File None)] in
  let C := Disk.api Md5.lib in
  let w := Example.seasoned C Example.a_txt_disk in
  get_file_hash Md5.lib fs ["a.txt"] = None
  /\ uploads (issued (sync_folder Md5.lib C Example.api fs) w)
     = [(["a.txt"], "backup/a.txt")]
  /\ fst (sync_folder Md5.lib C Example.api fs w) = Raised (OSError ["a.txt"]).
Proof. repeat split; vm_compute; reflexivity. Qed.

(** Without an entry of that name in the cloud the same file is left
    alone: [None] equals the [None] of the missing entry. *)
Lemma unreadable_file_without_remote_entry_is_skipped :
  let fs := Dir [("a.txt", File None)] in
  let C := Disk.api Md5.lib in
  let w := Example.seasoned C Disk.empty in
  uploads (issued (sync_folder Md5.lib C Example.api fs) w) = []
  /\ fst (sync_folder Md5.lib C Example.api fs w) = Returned tt.
Proof. repeat split; vm_compute; reflexivity. Qed.

(** ** [sanitize_path] applied twice *)

(** C7 on the code: backslashes are replaced after [normpath] has run, so
    the dot between two of them is still there in the result, and a second
    application removes it. *)
Lemma sanitize_path_is_not_idempotent :
  sanitize_path "a\.\b" = "a/./b"
  /\ sanitize_path (sanitize_path "a\.\b") = "a/b"
  /\ sanitize_path (sanitize_path "a\.\b") <> sanitize_path "a\.\b".
Proof. repeat split; vm_compute; try reflexivity; discriminate. Qed.

(** ** The digest *)

Example md5_of_nothing : Md5.hexdigest [] = "d41d8cd98f00b204e9800998ecf8427e".
Proof. vm_compute. reflexivity. Qed.

Example md5_of_abc :
  Md5.hexdigest [x61; x62; x63] = "900150983cd24fb0d6963f7d28e17f72".
Proof. vm_compute. reflexivity. Qed.

Example md5_of_two_blocks :
  Md5.hexdigest (repeat x61 64) = "014842d480b571495a4a0363793f7367".
Proof. vm_compute. reflexivity. Qed.

(** Feeding the digest block by block gives the digest of the whole. *)
Lemma read_chunks_md5 (fuel : nat) (data h : list byte) :
  length data < fuel -> read_chunks Md5.lib fuel data h = h ++ data.
Proof.
  revert data h. induction fuel as [| fuel IH]; intros data h Hlen; [lia |].
  cbn [read_chunks]. destruct (firstn CHUNK data) as [| b chunk] eqn:Hchunk.
  - destruct data as [| b data]; [rewrite app_nil_r; reflexivity |].
    discriminate Hchunk.
  - rewrite IH.
    + cbn [md5_update Md5.lib]. rewrite <- Hchunk, <- app_assoc.
      f_equal. apply firstn_skipn.
    + destruct data as [| b' data]; [discriminate Hchunk |].
      rewrite length_skipn. cbn [length] in *. unfold CHUNK. lia.
Qed.

Lemma md5_of_is_hexdigest (data : list byte) :
  md5_of Md5.lib data = Md5.hexdigest data.
Proof.
  unfold md5_of. rewrite read_chunks_md5 by lia. reflexivity.
Qed.

(** ** The scenario of the specification *)

(** C2, as stated, fails: the bootstrap pass of the scenario uploads
    [a.txt]; it does not issue zero uploads. *)
Lemma scenario_bootstrap_pass_uploads :
  uploads (issued (sync_folder Md5.lib Scenario.disk Scenario.api Scenario.tree)
             Scenario.start)
  <> [].
Proof. vm_compute. discriminate. Qed.

(** C2, amended. In the scenario the bootstrap pass calls [create_folder]
    twice, for the root and for [b], and uploads [a.txt], which the root
    task queued; the second pass uploads [b/b.txt] alone and deletes
    nothing; the third pass uploads nothing and deletes nothing. *)
Theorem scenario_three_passes :
  let pass := issued (sync_folder Md5.lib Scenario.disk Scenario.api Scenario.tree) in
  (first_run Scenario.start = true
   /\ created (pass Scenario.start) = [None; Some "b"]
   /\ uploads (pass Scenario.start) = [(["a.txt"], "backup/a.txt")]
   /\ deletes (pass Scenario.start) = [])
  /\ (first_run Scenario.after1 = false
      /\ uploads (pass Scenario.after1) = [(["b"; "b.txt"], "backup/b/b.txt")]
      /\ deletes (pass Scenario.after1) = [])
  /\ (first_run Scenario.after2 = false
      /\ uploads (pass Scenario.after2) = []
      /\ deletes (pass Scenario.after2) = []).
Proof.
  cbv zeta. repeat split; vm_compute; reflexivity.
Qed.

(** ** Requests in flight *)

(** C9 on the code: [create_folder] and [get_info] do not enter the
    semaphore. With the default limit of 55 and 56 eligible
    subdirectories, the gathered [sync_directory] coroutines reach a point
    where 56 [create_folder] requests are in flight. *)
Lemma more_requests_in_flight_than_the_limit :
  max_concurrent_requests Example.api = 55
  /\ exists l,
       Asyncio.run (seq 0 56)
         (Asyncio.gather_sync_tasks Example.api (repeat (true, [true], 1) 56)) = Some l
       /\ Asyncio.in_flight l = 56.
Proof.
  split; [reflexivity |].
  eexists. split; [vm_compute; reflexivity | vm_compute; reflexivity].
Qed.

(** *** What the semaphore does bound *)

Section InFlight.

Import Asyncio.

Lemma bracketed_holding (inside : bool) (t : list instr) :
  bracketed inside t = true -> holding t = inside.
Proof.
  induction t as [| [| | x | x | body] rest IH]; cbn; intros Hb.
  - destruct inside; [discriminate | reflexivity].
  - destruct inside; [discriminate | reflexivity].
  - destruct inside; [reflexivity | discriminate].
  - apply andb_true_iff in Hb as [_ Hb]. auto.
  - apply andb_true_iff in Hb as [_ Hb]. auto.
  - auto.
Qed.

Lemma replace_task (pool : list (list instr)) (i : nat) (t t' : list instr) :
  pool !! i = Some t ->
  exists before after,
    pool = before ++ t :: after /\ <[i := t']> pool = before ++ t' :: after.
Proof.
  intros Hi. exists (take i pool), (drop (S i) pool). split.
  - symmetry. apply take_drop_middle. exact Hi.
  - apply insert_take_drop. eapply lookup_lt_Some. exact Hi.
Qed.

Lemma holders_middle (before after : list (list instr)) (t : list instr) (sem : nat) :
  holders {| semaphore := sem; tasks := before ++ t :: after |}
  = length (List.filter holding before) + (if holding t then 1 else 0)
    + length (List.filter holding after).
Proof.
  unfold holders. cbn [tasks]. rewrite List.filter_app, length_app. cbn [List.filter].
  destruct (holding t); cbn [length]; lia.
Qed.

Lemma Forall_middle {A} (P : A -> Prop) (before after : list A) (x y : A) :
  Forall P (before ++ x :: after) -> P y -> Forall P (before ++ y :: after).
Proof.
  intros Hall Hy. apply Forall_app in Hall as [Hb Ha].
  apply Forall_app. split; [exact Hb |].
  inversion Ha; subst. constructor; assumption.
Qed.

Lemma Forall_middle_here {A} (P : A -> Prop) (before after : list A) (x : A) :
  Forall P (before ++ x :: after) -> P x.
Proof.
  intros Hall. apply Forall_app in Hall as [_ Ha]. inversion Ha; assumption.
Qed.

(** A turn keeps the loop balanced. *)
Lemma turn_balanced (limit i : nat) (l l' : loop) :
  balanced limit l -> turn i l = Some l' -> balanced limit l'.
Proof.
  intros [Hok Hsem] Hturn. unfold turn in Hturn.
  destruct (tasks l !! i) as [t |] eqn:Hi; [| discriminate].
  destruct t as [| c rest]; [discriminate |].
  destruct (replace_task _ _ _ rest Hi) as (before & after & Hpool & Hnew).
  rewrite Hnew in Hturn. clear Hnew Hi.
  destruct l as [sem pool]. cbn [tasks semaphore] in *. subst pool.
  pose proof (Forall_middle_here _ _ _ _ Hok) as Ht. cbn beta in Ht.
  unfold task_ok in Ht. apply andb_true_iff in Ht as [Hbr Hsp].
  rewrite holders_middle in Hsem.
  assert (Hrest : forall inside, bracketed inside rest = true ->
            forallb spawns_ok rest = true -> task_ok rest = true).
  { intros inside Hb Hs. unfold task_ok.
    rewrite (bracketed_holding _ _ Hb), Hb, Hs. reflexivity. }
  cbn [forallb] in Hsp. apply andb_true_iff in Hsp as [Hc Hsp].
  destruct c as [| | x | x | body]; cbn [holding bracketed] in Hbr, Hsem.
  - destruct sem as [| n]; [discriminate |]. injection Hturn as <-.
    cbn [negb andb] in Hbr.
    split; [eapply Forall_middle; eauto |].
    rewrite holders_middle, (bracketed_holding _ _ Hbr). cbn [semaphore]. lia.
  - injection Hturn as <-. cbn [andb] in Hbr.
    split; [eapply Forall_middle; eauto |].
    rewrite holders_middle, (bracketed_holding _ _ Hbr). cbn [semaphore]. lia.
  - injection Hturn as <-. apply andb_true_iff in Hbr as [_ Hbr].
    split; [eapply Forall_middle; eauto |].
    rewrite holders_middle. cbn [semaphore]. exact Hsem.
  - injection Hturn as <-. apply andb_true_iff in Hbr as [_ Hbr].
    split; [eapply Forall_middle; eauto |].
    rewrite holders_middle. cbn [semaphore]. exact Hsem.
  - injection Hturn as <-. cbn [spawns_ok] in Hc.
    apply andb_true_iff in Hc as [Hbody Hspawn].
    split.
    + cbn [tasks]. apply Forall_app. split; [eapply Forall_middle; eauto |].
      constructor; [| constructor]. unfold task_ok.
      rewrite (bracketed_holding _ _ Hbody), Hbody, Hspawn. reflexivity.
    + unfold holders in *. cbn [tasks semaphore] in *.
      rewrite List.filter_app, length_app. cbn [List.filter].
      rewrite (bracketed_holding _ _ Hbody). cbn [length].
      rewrite List.filter_app, length_app. cbn [List.filter].
      destruct (holding rest); cbn [length] in *; lia.
Qed.

Lemma run_balanced (limit : nat) (schedule : list nat) (l l' : loop) :
  balanced limit l -> run schedule l = Some l' -> balanced limit l'.
Proof.
  revert l. induction schedule as [| i schedule IH]; intros l Hl Hrun; cbn [run] in Hrun.
  - injection Hrun as <-. exact Hl.
  - destruct (turn i l) as [l1 |] eqn:Hturn; [| discriminate].
    eapply IH; [| exact Hrun]. eapply turn_balanced; eauto.
Qed.

(** In a balanced loop the requests of [upload] and [delete] in flight
    are no more than the limit. *)
Lemma balanced_transfers (limit : nat) (l : loop) :
  balanced limit l -> transfers_in_flight l <= limit.
Proof.
  intros [Hok Hsem]. assert (transfers_in_flight l <= holders l); [| lia].
  unfold transfers_in_flight, holders. clear Hsem.
  induction Hok as [| t pool Ht _ IH]; [reflexivity |]. cbn [List.filter].
  destruct (awaited t) as [x |] eqn:Hx.
  - destruct t as [| [| | y | y | body] rest]; try discriminate Hx.
    injection Hx as ->. unfold task_ok in Ht. apply andb_true_iff in Ht as [Hbr _].
    cbn [holding bracketed] in *. apply andb_true_iff in Hbr as [Himp _].
    destruct (under_semaphore x); cbn [implb] in Himp.
    + rewrite Himp. cbn [length]. lia.
    + destruct (holding rest); cbn [length]; lia.
  - destruct (holding t); cbn [length]; lia.
Qed.

Lemma upload_ok (link : bool) :
  bracketed false (upload link) = true /\ forallb spawns_ok (upload link) = true.
Proof. destruct link; split; reflexivity. Qed.

Lemma cleanup_ok (stale : nat) :
  bracketed false (cleanup stale) = true /\ forallb spawns_ok (cleanup stale) = true.
Proof.
  induction stale as [| stale [IHb IHs]]; [split; reflexivity |].
  split; cbn; assumption.
Qed.

Lemma queued_ok (queued : list bool) (rest : list instr) :
  bracketed false (map (fun link => CreateTask (upload link)) queued ++ rest)
  = bracketed false rest
  /\ forallb spawns_ok (map (fun link => CreateTask (upload link)) queued ++ rest)
     = forallb spawns_ok rest.
Proof.
  induction queued as [| link queued [IHb IHs]]; [split; reflexivity |].
  split; [exact IHb |].
  cbn [map app forallb spawns_ok]. destruct (upload_ok link) as [-> ->]. exact IHs.
Qed.

Lemma sync_directory_ok (listed : bool) (queued : list bool) (stale : nat) :
  task_ok (sync_directory listed queued stale) = true
  /\ holding (sync_directory listed queued stale) = false.
Proof.
  assert (Hb : bracketed false (sync_directory listed queued stale) = true
               /\ forallb spawns_ok (sync_directory listed queued stale) = true).
  { unfold sync_directory, create_folder, get_info, exchange_with_cloud.
    cbn [app bracketed forallb spawns_ok under_semaphore implb andb].
    destruct listed; [| split; reflexivity].
    destruct (queued_ok queued (cleanup stale)) as [-> ->]. apply cleanup_ok. }
  destruct Hb as [Hb Hs]. unfold task_ok.
  rewrite (bracketed_holding _ _ Hb), Hb, Hs. split; reflexivity.
Qed.

Lemma gather_sync_tasks_balanced (self : YandexDiskAPI)
  (directories : list (bool * list bool * nat)) :
  balanced (max_concurrent_requests self) (gather_sync_tasks self directories).
Proof.
  unfold balanced, holders, gather_sync_tasks. cbn [tasks semaphore].
  induction directories as [| [[listed queued] stale] directories [IHok IHsem]].
  - split; [constructor | cbn; lia].
  - destruct (sync_directory_ok listed queued stale) as [Hok Hhold].
    cbn [map List.filter]. rewrite Hhold. split; [constructor; assumption | exact IHsem].
Qed.

(** X23. The semaphore does what it is used for: however the gathered
    [sync_directory] coroutines and the upload tasks they create take
    their turns, the requests of [upload] and [delete] in flight are no
    more than [max_concurrent_requests]. *)
Lemma transfers_stay_under_the_limit (self : YandexDiskAPI)
  (directories : list (bool * list bool * nat)) (schedule : list nat) (l : loop) :
  run schedule (gather_sync_tasks self directories) = Some l ->
  transfers_in_flight l <= max_concurrent_requests self.
Proof.
  intros Hrun. apply balanced_transfers.
  eapply run_balanced; [apply gather_sync_tasks_balanced | exact Hrun].
Qed.

End InFlight.

(** ** More on the path helpers *)

Lemma replace_removes (a b : ascii) (s : string) :
  Ascii.eqb b a = false -> PyStr.contains a (PyStr.replace a b s) = false.
Proof.
  intros Hb. induction s as [| c s IH]; [reflexivity |].
  cbn -[Ascii.eqb]. rewrite IH, orb_false_r.
  destruct (Ascii.eqb c a) eqn:Hc; [exact Hb | exact Hc].
Qed.

Lemma sanitize_path_no_backslash (path : string) :
  PyStr.contains backslash (sanitize_path path) = false.
Proof. apply replace_removes. reflexivity. Qed.

Lemma normpath_not_empty (path : string) : PosixPath.normpath path <> "".
Proof.
  unfold PosixPath.normpath. destruct (PyStr.eqb path ""); [discriminate |]. cbv zeta.
  destruct (PosixPath.slashes_prefix _ +:+ _) eqn:Hj; cbn; discriminate.
Qed.

Lemma replace_not_empty (a b : ascii) (s : string) :
  s <> "" -> PyStr.replace a b s <> "".
Proof. destruct s; [contradiction | discriminate]. Qed.

Lemma sanitize_path_not_empty (path : string) : sanitize_path path <> "".
Proof. apply replace_not_empty, normpath_not_empty. Qed.

(** X1. Whatever the path, a second application of [sanitize_path]
    reaches a path that further applications leave alone. *)
Theorem sanitize_path_settles_at_the_second_application (path : string) :
  sanitize_path (sanitize_path (sanitize_path path))
  = sanitize_path (sanitize_path path).
Proof.
  pose proof (sanitize_path_no_backslash path) as Hclean.
  rewrite (sanitize_path_without_backslash (sanitize_path path) Hclean).
  rewrite sanitize_path_without_backslash
    by (apply normpath_no_backslash; exact Hclean).
  apply normpath_idempotent.
Qed.

(** X3. [sanitize_path] never returns the empty string, and what it
    returns holds no backslash. *)
Theorem sanitize_path_is_not_empty_and_has_no_backslash (path : string) :
  sanitize_path path <> ""
  /\ PyStr.contains backslash (sanitize_path path) = false.
Proof. split; [apply sanitize_path_not_empty | apply sanitize_path_no_backslash]. Qed.

(** X4. Eligibility is decided segment by segment: a relative path made
    of a directory and a name is eligible exactly when both are. *)
Theorem eligibility_of_a_path_is_that_of_its_parts (dir name : string) :
  validate_path (dir +:+ "/" +:+ name) = validate_path dir && validate_path name.
Proof. apply validate_path_join. Qed.

Lemma rstrip_last (c : ascii) (s : string) :
  PyStr.rstrip c (s +:+ String c "") = PyStr.rstrip c s.
Proof.
  induction s as [| a s IH].
  - rewrite append_nil_l. cbn -[Ascii.eqb]. rewrite Ascii.eqb_refl. reflexivity.
  - rewrite append_cons. cbn [PyStr.rstrip]. rewrite IH. reflexivity.
Qed.

Lemma rstrip_repeat (c : ascii) (s : string) (n : nat) :
  PyStr.rstrip c (s +:+ string_of_list_ascii (repeat c n)) = PyStr.rstrip c s.
Proof.
  revert s. induction n as [| n IH]; intros s; cbn [repeat string_of_list_ascii].
  - f_equal. induction s as [| a s IHs]; [reflexivity |]. rewrite append_cons, IHs. reflexivity.
  - change (String c (string_of_list_ascii (repeat c n)))
      with (String c "" +:+ string_of_list_ascii (repeat c n)).
    rewrite <- append_assoc, IH. apply rstrip_last.
Qed.

(** X7. Slashes at the end of the configured folder do not matter: the
    instance is the same with any number of them. *)
Theorem init_ignores_trailing_slashes (token folder : string) (limit n : nat) :
  init token (folder +:+ string_of_list_ascii (repeat "/"%char n)) limit
  = init token folder limit.
Proof. unfold init. rewrite rstrip_repeat. reflexivity. Qed.

(** X8. Every path that an instance built by [__init__] forms is not
    empty and holds no backslash. *)
Theorem get_full_path_is_not_empty_and_has_no_backslash
  (YANDEX_TOKEN YANDEX_FOLDER : string) (limit : nat)
  (remote_path filename : option string) :
  get_full_path (init YANDEX_TOKEN YANDEX_FOLDER limit) remote_path filename <> ""
  /\ PyStr.contains backslash
       (get_full_path (init YANDEX_TOKEN YANDEX_FOLDER limit) remote_path filename)
     = false.
Proof.
  unfold get_full_path, init. cbn [folder].
  destruct remote_path as [rp |], filename as [fn |];
    repeat match goal with
      | |- context [if ?b then _ else _] => destruct b
      end;
    (split; [apply sanitize_path_not_empty | apply sanitize_path_no_backslash]).
Qed.

(** X5. Replacing the backslashes does not make a hidden directory
    eligible: a directory whose names are those of a listing and whose
    relative path [validate_path] rejects is rejected after
    [sanitize_path] too. *)
Theorem sanitize_path_keeps_a_directory_ineligible (root : list string) :
  forallb Os.name_ok root = true -> root <> [] ->
  validate_path (Os.relpath root) = false ->
  validate_path (sanitize_path (Os.relpath root)) = false.
Proof.
  intros Hnames Hroot Hbad.
  destruct (validate_path (sanitize_path (Os.relpath root))) eqn:Hsan; [| reflexivity].
  rewrite (validate_path_sanitized_relpath root Hnames Hroot Hsan) in Hbad.
  discriminate.
Qed.

Lemma sanitize_path_keeps_a_directory_ineligible_witness :
  validate_path (sanitize_path (Os.relpath ["src"; "a\.hidden"; ".cache"])) = false.
Proof.
  refine (sanitize_path_keeps_a_directory_ineligible ["src"; "a\.hidden"; ".cache"] _ _ _).
  - reflexivity.
  - discriminate.
  - reflexivity.
Defined.

(** X6. The fingerprint of a file that can be read is the MD5 digest of
    its whole content, whatever its size; for a file that cannot be read
    it is [None]. *)
Theorem get_file_hash_is_the_md5_of_the_content (fs : node) (filepath : list string) :
  get_file_hash Md5.lib fs filepath
  = option_map Md5.hexdigest (Os.read_bytes fs filepath).
Proof.
  unfold get_file_hash. destruct (Os.read_bytes fs filepath) as [data |]; [| reflexivity].
  cbn [option_map]. f_equal. apply md5_of_is_hexdigest.
Qed.

(** ** The world after each operation *)

Section Anatomy.

Variable H : hashlib.
Variable C : cloud_api.
Variable self : YandexDiskAPI.

Lemma advance_nothing (w : world C) : advance w (cloud w) [] [] = w.
Proof. destruct w. unfold advance. cbn. rewrite !app_nil_r. reflexivity. Qed.

Lemma advance_advance (w : world C) c q o c' q' o' :
  advance (advance w c q o) c' q' o' = advance w c' (q ++ q') (o ++ o').
Proof. unfold advance. cbn. rewrite !app_assoc. reflexivity. Qed.

Lemma create_folder_world (path : option string) (w : world C) :
  exists b,
    create_folder C self path w
    = (Returned b,
       advance w (snd (serve C (PutResource (get_full_path self path None)) (cloud w)))
         [] [CreateFolder path]).
Proof.
  unfold create_folder, bind, log, send, advance. cbn -[status_in].
  rewrite app_nil_r.
  destruct (serve C _ (cloud w)) as [r c1]. cbn -[status_in].
  destruct (status_in _ _); cbn; eauto.
Qed.

Lemma get_info_world (p : string) (w : world C) :
  get_info C self p w
  = (if (status (fst (serve C (GetResource p) (cloud w))) =? 200)%Z
     then Returned (cloud_files_of (items (fst (serve C (GetResource p) (cloud w)))))
     else Raised (FileNotFoundError p),
     advance w (snd (serve C (GetResource p) (cloud w))) [] [GetInfo p]).
Proof.
  unfold get_info, bind, log, send, advance. cbn -[Z.eqb].
  rewrite app_nil_r.
  destruct (serve C _ (cloud w)) as [r c1]. cbn -[Z.eqb].
  destruct (_ =? _)%Z; reflexivity.
Qed.

Lemma delete_world (p : string) (w : world C) :
  exists b,
    delete C self p w
    = (Returned b, advance w (snd (serve C (DeleteResource p) (cloud w))) [] [Delete p]).
Proof.
  unfold delete, bind, log, send, advance. cbn -[status_in].
  rewrite app_nil_r.
  destruct (serve C _ (cloud w)) as [r c1]. cbn -[status_in].
  destruct (status_in _ _); cbn; eauto.
Qed.

Lemma filter_twice {A} (f g : A -> bool) (l : list A) :
  List.filter g (List.filter f l) = List.filter (fun x => f x && g x) l.
Proof.
  induction l as [| x l IH]; [reflexivity |]. cbn [List.filter].
  destruct (f x); cbn [andb List.filter]; [destruct (g x) |]; rewrite IH; reflexivity.
Qed.

Lemma append_upload_task_world (t : list string * string) (w : world C) :
  append_upload_task C t w = (Returned tt, advance w (cloud w) [t] []).
Proof.
  unfold append_upload_task, bind, read_upload_tasks, write_upload_tasks, advance.
  cbn. rewrite app_nil_r. reflexivity.
Qed.

Lemma queue_loop_world (changed : string -> bool) (task : string -> list string * string)
  (files : list string) (w : world C) :
  for_each C files
    (fun file => if changed file then append_upload_task C (task file) else ret C tt) w
  = (Returned tt, advance w (cloud w) (map task (List.filter changed files)) []).
Proof.
  revert w. induction files as [| file files IH]; intros w; cbn [for_each List.filter].
  - cbn [map]. rewrite advance_nothing. reflexivity.
  - destruct (changed file).
    + rewrite (bind_returned C _ _ w _ tt (append_upload_task_world _ w)).
      rewrite IH, advance_advance. reflexivity.
    + rewrite (bind_returned C _ _ w w tt eq_refl). apply IH.
Qed.

Lemma delete_loop_world (remote_path : option string) (names : list string) (w : world C) :
  exists c,
    for_each C names
      (fun remote_file =>
         bind C (delete C self (get_full_path self remote_path (Some remote_file)))
           (fun _ => ret C tt)) w
    = (Returned tt,
       advance w c []
         (map (fun name => Delete (get_full_path self remote_path (Some name))) names)).
Proof.
  revert w. induction names as [| name names IH]; intros w; cbn [for_each map].
  - exists (cloud w). rewrite advance_nothing. reflexivity.
  - destruct (delete_world (get_full_path self remote_path (Some name)) w) as (b & Hdel).
    destruct (IH (advance w (snd (serve C (DeleteResource
                    (get_full_path self remote_path (Some name))) (cloud w))) []
                    [Delete (get_full_path self remote_path (Some name))])) as (c & Hrun).
    exists c.
    assert (Hstep : bind C (delete C self (get_full_path self remote_path (Some name)))
                      (fun _ => ret C tt) w
                    = (Returned tt,
                       advance w (snd (serve C (DeleteResource
                         (get_full_path self remote_path (Some name))) (cloud w))) []
                         [Delete (get_full_path self remote_path (Some name))]))
      by (rewrite (bind_returned C _ _ w _ b Hdel); reflexivity).
    rewrite (bind_returned C _ _ w _ tt Hstep).
    rewrite Hrun, advance_advance. reflexivity.
Qed.

(** The anatomy of [sync_directory]: it returns, whatever the cloud
    answers; it calls [create_folder], then [get_info], then [delete] for
    the stale names; it queues the changed files. *)
Lemma sync_directory_world (fs : node) (local_dir : list string)
  (remote_path : option string) (w : world C) :
  exists c,
    sync_directory H C self fs local_dir remote_path w
    = (Returned tt,
       advance w c
         (map (upload_task self local_dir remote_path)
            (fst (directory_diff H C self fs local_dir remote_path w)))
         ([CreateFolder remote_path; GetInfo (get_full_path self remote_path None)]
          ++ map (fun name => Delete (get_full_path self remote_path (Some name)))
               (snd (directory_diff H C self fs local_dir remote_path w)))).
Proof.
  unfold directory_diff, listing_reply.
  destruct (create_folder_world remote_path w) as (b & Hcreate).
  set (full := get_full_path self remote_path None) in *.
  set (c1 := snd (serve C (PutResource full) (cloud w))) in *.
  set (w1 := advance w c1 [] [CreateFolder remote_path]) in *.
  set (reply := fst (serve C (GetResource full) c1)).
  set (c2 := snd (serve C (GetResource full) c1)).
  unfold sync_directory. rewrite (bind_returned C _ _ w w1 b Hcreate).
  unfold try_except_FileNotFoundError. fold full.
  unfold bind at 1. rewrite (get_info_world full w1).
  change (cloud w1) with c1. fold reply c2.
  destruct (status reply =? 200)%Z.
  - unfold listdir at 1. destruct (Os.listdir fs local_dir) as [names |] eqn:Hnames.
    + rewrite (bind_returned C _ _ _ _ names eq_refl).
      set (cloud_files := cloud_files_of (items reply)).
      set (w2 := advance w1 c2 [] [GetInfo full]).
      change (List.filter (fun f => validate_path f && Os.isfile fs (local_dir ++ [f])) names)
        with (List.filter (fun f => validate_path f && Os.isfile fs (local_dir ++ [f])) names).
      pose proof (queue_loop_world
                    (fun file => py_ne (get_file_hash H fs (local_dir ++ [file]))
                                   (dict_get cloud_files file))
                    (upload_task self local_dir remote_path)
                    (List.filter (fun f => validate_path f && Os.isfile fs (local_dir ++ [f]))
                       names) w2) as Hqueue.
      rewrite (bind_returned C _ _ w2 _ tt Hqueue).
      unfold listdir. rewrite Hnames. rewrite (bind_returned C _ _ _ _ names eq_refl).
      unfold cleanup.
      destruct (delete_loop_world remote_path
                  (elements (files_to_delete cloud_files names))
                  (advance w2 (cloud w2)
                     (map (upload_task self local_dir remote_path)
                        (List.filter
                           (fun file => py_ne (get_file_hash H fs (local_dir ++ [file]))
                                          (dict_get cloud_files file))
                           (List.filter
                              (fun f => validate_path f && Os.isfile fs (local_dir ++ [f]))
                              names))) [])) as (c3 & Hdelete).
      rewrite Hdelete. exists c3. f_equal.
      unfold w2, w1. rewrite !advance_advance. cbn [app].
      cbn [fst snd]. rewrite app_nil_r, filter_twice. reflexivity.
    + cbn. exists c2. f_equal. unfold w1. rewrite advance_advance. reflexivity.
  - cbn. exists c2. f_equal. unfold w1. rewrite advance_advance. reflexivity.
Qed.


Lemma bind_discard {A} (m : M C A) (w w1 : world C) (a : A) :
  m w = (Returned a, w1) -> bind C m (fun _ => ret C tt) w = (Returned tt, w1).
Proof. intros Hm. rewrite (bind_returned C _ _ w w1 a Hm). reflexivity. Qed.

Lemma upload_world (fs : node) (file_path : list string) (remote_path : string)
  (w : world C) :
  exists b c,
    upload C self fs file_path remote_path w
    = (if link_granted C remote_path w then
         match Os.read_bytes fs file_path with
         | Some _ => Returned b
         | None => Raised (OSError file_path)
         end
       else Returned false,
       advance w c [] [Upload file_path remote_path])
    /\ (link_granted C remote_path w = false \/ Os.read_bytes fs file_path = None ->
        c = snd (serve C (GetUploadLink (sanitize_path remote_path)) (cloud w))).
Proof.
  unfold upload, get_upload_url, link_granted, bind, log, send, advance.
  cbn -[status_in Z.eqb]. rewrite app_nil_r.
  destruct (serve C (GetUploadLink _) (cloud w)) as [r c1]. cbn -[status_in Z.eqb].
  destruct (status r =? 200)%Z; cbn -[status_in].
  - destruct (opt_truthy (href r)); cbn -[status_in].
    + destruct (Os.read_bytes fs file_path) as [data |]; cbn -[status_in].
      * destruct (serve C (PutContent _ _) c1) as [r2 c2]. cbn -[status_in].
        destruct (status_in _ _); cbn; eexists _, c2;
          (split; [reflexivity | intros [? | ?]; discriminate]).
      * exists false, c1. split; [reflexivity | reflexivity].
    + exists false, c1. split; reflexivity.
  - exists false, c1. split; reflexivity.
Qed.

Lemma gather_uploads_world (fs : node) (tasks : list (list string * string))
  (w : world C) :
  exists outcome c,
    gather_uploads C self fs tasks w
    = (outcome, advance w c [] (map (fun t => Upload (fst t) (snd t)) tasks))
    /\ (outcome = Returned tt
        \/ exists file_path remote_path,
             In (file_path, remote_path) tasks
             /\ Os.read_bytes fs file_path = None
             /\ outcome = Raised (OSError file_path)).
Proof.
  revert w. induction tasks as [| [fp rp] tasks IH]; intros w; cbn [gather_uploads map].
  - exists (Returned tt), (cloud w). rewrite advance_nothing. split; [reflexivity | left; reflexivity].
  - destruct (upload_world fs fp rp w) as (b & c1 & Hup & _). rewrite Hup.
    destruct (IH (advance w c1 [] [Upload fp rp])) as (outcome & c2 & Hrest & Hout).
    rewrite Hrest, advance_advance. cbn [fst snd app].
    destruct (link_granted C rp w); [destruct (Os.read_bytes fs fp) as [data |] eqn:Hread |].
    + exists outcome, c2. split; [reflexivity |].
      destruct Hout as [-> | (fp' & rp' & Hin & Hnone & ->)]; [left; reflexivity |].
      right. exists fp', rp'. auto using in_cons.
    + exists (Raised (OSError fp)), c2. split; [reflexivity |].
      right. exists fp, rp. split; [left; reflexivity | split; [exact Hread | reflexivity]].
    + exists outcome, c2. split; [reflexivity |].
      destruct Hout as [-> | (fp' & rp' & Hin & Hnone & ->)]; [left; reflexivity |].
      right. exists fp', rp'. auto using in_cons.
Qed.

Lemma create_folders_first_world (fs : node) (w : world C) :
  exists c,
    create_folders_first C self fs w
    = (Returned tt,
       advance w c [] (map (fun p => CreateFolder (Some p)) (eligible_directories fs))).
Proof.
  unfold create_folders_first, eligible_directories.
  generalize (Os.walk [] fs) as items. intros items. revert w.
  induction items as [| [[root dirs] files] items IH]; intros w; cbn [for_each map List.filter].
  - exists (cloud w). rewrite advance_nothing. reflexivity.
  - destruct (validate_path (sanitize_path (Os.relpath root))).
    + destruct (create_folder_world (Some (sanitize_path (Os.relpath root))) w) as (b & Hcreate).
      match type of Hcreate with _ = (_, ?w1) => destruct (IH w1) as (c & Hrest) end.
      exists c.
      rewrite (bind_returned C _ _ w _ tt (bind_discard _ w _ b Hcreate)).
      rewrite Hrest, advance_advance. reflexivity.
    + destruct (IH w) as (c & Hrest). exists c.
      rewrite (bind_returned C _ _ w w tt eq_refl). exact Hrest.
Qed.

Lemma created_app (a b : list op) : created (a ++ b) = created a ++ created b.
Proof. unfold created. apply omap_app. Qed.

Lemma listed_app (a b : list op) : listed (a ++ b) = listed a ++ listed b.
Proof. unfold listed. apply omap_app. Qed.

Lemma uploads_app (a b : list op) : uploads (a ++ b) = uploads a ++ uploads b.
Proof. unfold uploads. apply omap_app. Qed.


Lemma created_of_deletes {A} (f : A -> string) (l : list A) :
  created (map (fun x => Delete (f x)) l) = [].
Proof. induction l as [| x l IH]; [reflexivity | exact IH]. Qed.

Lemma listed_of_deletes {A} (f : A -> string) (l : list A) :
  listed (map (fun x => Delete (f x)) l) = [].
Proof. induction l as [| x l IH]; [reflexivity | exact IH]. Qed.

Lemma uploads_of_deletes {A} (f : A -> string) (l : list A) :
  uploads (map (fun x => Delete (f x)) l) = [].
Proof. induction l as [| x l IH]; [reflexivity | exact IH]. Qed.


Lemma uploads_of_uploads (tasks : list (list string * string)) :
  uploads (map (fun t => Upload (fst t) (snd t)) tasks) = tasks.
Proof.
  unfold uploads. induction tasks as [| [fp rp] tasks IH]; [reflexivity |].
  cbn. rewrite IH. reflexivity.
Qed.

Lemma created_of_uploads (tasks : list (list string * string)) :
  created (map (fun t => Upload (fst t) (snd t)) tasks) = [].
Proof. induction tasks; [reflexivity | exact IHtasks]. Qed.

Lemma listed_of_uploads (tasks : list (list string * string)) :
  listed (map (fun t => Upload (fst t) (snd t)) tasks) = [].
Proof. induction tasks; [reflexivity | exact IHtasks]. Qed.


Lemma created_of_creations (paths : list string) :
  created (map (fun p => CreateFolder (Some p)) paths) = map Some paths.
Proof.
  unfold created. induction paths as [| p paths IH]; [reflexivity |].
  cbn. rewrite IH. reflexivity.
Qed.

Lemma listed_of_creations (paths : list string) :
  listed (map (fun p => CreateFolder (Some p)) paths) = [].
Proof. induction paths; [reflexivity | exact IHpaths]. Qed.

Lemma uploads_of_creations (paths : list string) :
  uploads (map (fun p => CreateFolder (Some p)) paths) = [].
Proof. induction paths; [reflexivity | exact IHpaths]. Qed.


(** The gathered [sync_directory] calls of an incremental pass: one
    [create_folder] and one [get_info] per eligible directory, in the
    order of the walk, and no upload. *)
Lemma sync_subdirectories_world (fs : node) (w : world C) :
  exists c queued ops,
    sync_subdirectories H C self fs w = (Returned tt, advance w c queued ops)
    /\ created ops = map Some (eligible_directories fs)
    /\ listed ops
       = map (fun p => get_full_path self (Some p) None) (eligible_directories fs)
    /\ uploads ops = [].
Proof.
  unfold sync_subdirectories, eligible_directories.
  generalize (Os.walk [] fs) as items. intros items. revert w.
  induction items as [| [[root dirs] files] items IH]; intros w; cbn [for_each map List.filter].
  - exists (cloud w), [], []. rewrite advance_nothing. repeat split; reflexivity.
  - destruct (bool_decide (root = [])) eqn:Hroot; cbn [negb].
    + apply bool_decide_eq_true in Hroot as ->.
      change (validate_path (sanitize_path (Os.relpath []))) with false. cbn iota.
      destruct (IH w) as (c & queued & ops & Hrest & Hc & Hl & Hu).
      exists c, queued, ops. rewrite (bind_returned C _ _ w w tt eq_refl). auto.
    + destruct (validate_path (sanitize_path (Os.relpath root))).
      * destruct (sync_directory_world fs root (Some (sanitize_path (Os.relpath root))) w)
          as (c1 & Hdir).
        match type of Hdir with _ = (_, ?w1) => destruct (IH w1)
          as (c & queued & ops & Hrest & Hc & Hl & Hu) end.
        eexists c, _, _. rewrite (bind_returned C _ _ w _ tt Hdir).
        rewrite Hrest, advance_advance. split; [reflexivity |].
        rewrite !created_app, !listed_app, !uploads_app.
        rewrite created_of_deletes, listed_of_deletes, uploads_of_deletes, Hc, Hl, Hu.
        repeat split; reflexivity.
      * destruct (IH w) as (c & queued & ops & Hrest & Hc & Hl & Hu).
        exists c, queued, ops. rewrite (bind_returned C _ _ w w tt eq_refl). auto.
Qed.

Lemma gather_or_nothing (fs : node) (tasks : list (list string * string)) (w : world C) :
  match tasks with
  | [] => ret C tt
  | _ => gather_uploads C self fs tasks
  end w = gather_uploads C self fs tasks w.
Proof. destruct tasks; reflexivity. Qed.

(** The end of a pass, from a world whose queue is [tasks]. *)
Lemma drain_world (fs : node) (w : world C) :
  exists outcome c,
    bind C (read_upload_tasks C) (fun tasks =>
      bind C (match tasks with
              | [] => ret C tt
              | _ => gather_uploads C self fs tasks
              end) (fun _ => write_first_run C false)) w
    = (outcome,
       {| first_run := match outcome with Returned _ => false | Raised _ => first_run w end;
          cloud := c;
          upload_tasks := upload_tasks w;
          trace := trace w ++ map (fun t => Upload (fst t) (snd t)) (upload_tasks w) |})
    /\ (outcome = Returned tt
        \/ exists file_path remote_path,
             In (file_path, remote_path) (upload_tasks w)
             /\ Os.read_bytes fs file_path = None
             /\ outcome = Raised (OSError file_path)).
Proof.
  destruct (gather_uploads_world fs (upload_tasks w) w) as (outcome & c & Hgather & Hout).
  exists outcome, c. split; [| exact Hout].
  unfold bind at 1. cbn [read_upload_tasks]. unfold bind.
  rewrite gather_or_nothing, Hgather.
  destruct Hout as [-> | (fp & rp & _ & _ & ->)]; unfold advance; cbn;
    rewrite app_nil_r; reflexivity.
Qed.

(** The anatomy of a pass. The root directory is reconciled; then the
    bootstrap pass creates the eligible folders, and an incremental pass
    reconciles them; then every queued upload is issued. The flag is
    cleared when the pass returns, and left alone when it raises. *)
Lemma sync_folder_world (fs : node) (w : world C) :
  let root_queue :=
    map (upload_task self [] None) (fst (directory_diff H C self fs [] None w)) in
  let root_ops :=
    [CreateFolder None; GetInfo (get_full_path self None None)]
    ++ map (fun name => Delete (get_full_path self None (Some name)))
         (snd (directory_diff H C self fs [] None w)) in
  exists outcome c ops queued,
    sync_folder H C self fs w
    = (outcome,
       {| first_run := match outcome with Returned _ => false | Raised _ => first_run w end;
          cloud := c;
          upload_tasks := root_queue ++ queued;
          trace := trace w ++ root_ops ++ ops
                   ++ map (fun t => Upload (fst t) (snd t)) (root_queue ++ queued) |})
    /\ (first_run w = true ->
        ops = map (fun p => CreateFolder (Some p)) (eligible_directories fs)
        /\ queued = [])
    /\ (first_run w = false ->
        created ops = map Some (eligible_directories fs)
        /\ listed ops
           = map (fun p => get_full_path self (Some p) None) (eligible_directories fs)
        /\ uploads ops = [])
    /\ (outcome = Returned tt
        \/ exists file_path remote_path,
             In (file_path, remote_path) (root_queue ++ queued)
             /\ Os.read_bytes fs file_path = None
             /\ outcome = Raised (OSError file_path)).
Proof.
  intros root_queue root_ops. rewrite sync_folder_branch.
  set (w0 := {| first_run := first_run w; cloud := cloud w;
                upload_tasks := []; trace := trace w |}).
  destruct (sync_directory_world fs [] None w0) as (c1 & Hroot).
  change (directory_diff H C self fs [] None w0)
    with (directory_diff H C self fs [] None w) in Hroot.
  fold root_queue root_ops in Hroot.
  assert (Hw0 : write_upload_tasks C [] w = (Returned tt, w0)) by reflexivity.
  destruct (Bool.bool_dec (first_run w) true) as [Hflag | Hflag];
    [| apply not_true_is_false in Hflag]; rewrite Hflag.
  - unfold bootstrap_pass.
    rewrite (bind_returned C _ _ w w0 tt Hw0).
    rewrite (bind_returned C _ _ w0 _ tt Hroot).
    destruct (create_folders_first_world fs (advance w0 c1 root_queue root_ops))
      as (c2 & Hcreate).
    rewrite (bind_returned C _ _ _ _ tt Hcreate). rewrite advance_advance.
    destruct (drain_world fs (advance w0 c2 (root_queue ++ [])
                (root_ops ++ map (fun p => CreateFolder (Some p)) (eligible_directories fs))))
      as (outcome & c3 & Hdrain & Hout).
    exists outcome, c3, (map (fun p => CreateFolder (Some p)) (eligible_directories fs)), [].
    rewrite Hdrain. cbn [advance first_run upload_tasks trace cloud w0 app] in *.
    split; [| split; [auto | split; [discriminate | exact Hout]]].
    rewrite <- !app_assoc, ?Hflag. reflexivity.
  - unfold incremental_pass.
    rewrite (bind_returned C _ _ w w0 tt Hw0).
    rewrite (bind_returned C _ _ w0 _ tt Hroot).
    destruct (sync_subdirectories_world fs (advance w0 c1 root_queue root_ops))
      as (c2 & queued & ops & Hsub & Hc & Hl & Hu).
    rewrite (bind_returned C _ _ _ _ tt Hsub). rewrite advance_advance.
    destruct (drain_world fs (advance w0 c2 (root_queue ++ queued) (root_ops ++ ops)))
      as (outcome & c3 & Hdrain & Hout).
    exists outcome, c3, ops, queued.
    rewrite Hdrain. cbn [advance first_run upload_tasks trace cloud w0 app] in *.
    split; [| split; [discriminate | split; [auto | exact Hout]]].
    rewrite <- !app_assoc, ?Hflag. reflexivity.
Qed.

End Anatomy.

(** ** The dict of a listing *)

Lemma cloud_files_fold_dom (its : list item) (m : gmap string (option string))
  (name : string) :
  name ∈ dom (fold_left
                (fun m it =>
                   if bool_decide (item_type it = Some "file")
                   then <[item_name it := item_md5 it]> m else m) its m)
  <-> name ∈ dom m
      \/ exists it, In it its /\ item_type it = Some "file" /\ item_name it = name.
Proof.
  revert m. induction its as [| it its IH]; intros m; cbn [fold_left].
  - split; [auto | intros [Hm | (it & [] & _)]; exact Hm].
  - rewrite IH. destruct (bool_decide (item_type it = Some "file")) eqn:Hfile.
    + apply bool_decide_eq_true in Hfile. rewrite dom_insert, elem_of_union, elem_of_singleton.
      split.
      * intros [[-> | Hm] | (it' & Hin & Hty & Hname)].
        -- right. exists it. split; [left; reflexivity | auto].
        -- left. exact Hm.
        -- right. exists it'. split; [right; exact Hin | auto].
      * intros [Hm | (it' & [<- | Hin] & Hty & Hname)].
        -- left. right. exact Hm.
        -- left. left. symmetry. exact Hname.
        -- right. exists it'. auto.
    + apply bool_decide_eq_false in Hfile. split.
      * intros [Hm | (it' & Hin & Hty & Hname)]; [left; exact Hm |].
        right. exists it'. split; [right; exact Hin | auto].
      * intros [Hm | (it' & [<- | Hin] & Hty & Hname)]; [left; exact Hm | contradiction |].
        right. exists it'. auto.
Qed.

Lemma cloud_files_fold_lookup (its : list item) (m : gmap string (option string))
  (name : string) :
  Forall (fun it => item_type it = Some "file" -> item_name it <> name) its ->
  fold_left
    (fun m it =>
       if bool_decide (item_type it = Some "file")
       then <[item_name it := item_md5 it]> m else m) its m !! name
  = m !! name.
Proof.
  revert m. induction its as [| it its IH]; intros m Hits; [reflexivity |].
  inversion Hits as [| ? ? Hit Hrest]; subst. cbn [fold_left]. rewrite (IH _ Hrest).
  destruct (bool_decide (item_type it = Some "file")) eqn:Hfile; [| reflexivity].
  apply bool_decide_eq_true in Hfile. apply lookup_insert_ne. auto.
Qed.

(** X9. The dict that [get_info] returns has one key per name that the
    listing reports with the type [file], and no other: the folders of the
    cloud are not in it. When a name is listed more than once, its value
    is the [md5] of the last such item. *)
Theorem cloud_files_are_the_listed_files (its : list item) (name : string) :
  (name ∈ dom (cloud_files_of its)
   <-> exists it, In it its /\ item_type it = Some "file" /\ item_name it = name)
  /\ forall before it after,
       its = before ++ it :: after ->
       item_type it = Some "file" -> item_name it = name ->
       Forall (fun it' => item_type it' = Some "file" -> item_name it' <> name) after ->
       dict_get (cloud_files_of its) name = item_md5 it.
Proof.
  split.
  - unfold cloud_files_of. rewrite cloud_files_fold_dom, dom_empty, elem_of_empty. tauto.
  - intros before it after -> Hty Hname Hafter.
    unfold dict_get, cloud_files_of. rewrite fold_left_app. cbn [fold_left].
    rewrite (cloud_files_fold_lookup _ _ _ Hafter).
    rewrite bool_decide_eq_true_2 by exact Hty.
    rewrite Hname, lookup_insert_eq. reflexivity.
Qed.

(** ** One directory *)

Section Reconciliation.

Variable H : hashlib.
Variable C : cloud_api.
Variable self : YandexDiskAPI.

Lemma issued_advance {A} (m : M C A) (w : world C) (r : result A)
  (c : cloud_state C) (queued : list (list string * string)) (ops : list op) :
  m w = (r, advance w c queued ops) -> issued m w = ops.
Proof. intros Hm. apply issued_of_trace. rewrite Hm. reflexivity. Qed.

(** X10. When the local directory can be listed, [sync_directory]
    returns whatever the cloud answers: the [FileNotFoundError] of
    [get_info] does not leave it. It leaves the first-run flag alone; it
    calls [create_folder], then [get_info] on the full path of the
    folder, then [delete] for the stale names when the cloud listed the
    folder, and nothing else: the uploads are queued, not made. *)
Theorem sync_directory_returns_whatever_the_cloud_answers (fs : node)
  (local_dir : list string) (remote_path : option string) (w : world C)
  (names : list string) :
  Os.listdir fs local_dir = Some names ->
  fst (sync_directory H C self fs local_dir remote_path w) = Returned tt
  /\ first_run (snd (sync_directory H C self fs local_dir remote_path w)) = first_run w
  /\ issued (sync_directory H C self fs local_dir remote_path) w
     = CreateFolder remote_path
       :: GetInfo (get_full_path self remote_path None)
       :: map (fun name => Delete (get_full_path self remote_path (Some name)))
            (if (status (listing_reply C self remote_path w) =? 200)%Z
             then elements
                    (files_to_delete
                       (cloud_files_of (items (listing_reply C self remote_path w)))
                       names)
             else []).
Proof.
  intros Hnames.
  destruct (sync_directory_world H C self fs local_dir remote_path w) as (c & Hrun).
  rewrite (issued_advance _ _ _ _ _ _ Hrun), Hrun.
  split; [reflexivity | split; [reflexivity |]].
  unfold directory_diff. rewrite Hnames.
  destruct (status (listing_reply C self remote_path w) =? 200)%Z; reflexivity.
Qed.

(** X11. When the cloud lists the folder and the local directory is
    listed as [names], [sync_directory] adds to the queue one upload per
    changed file, in the order of the local listing, and nothing else: a
    changed file is a name that [validate_path] accepts, that is a file,
    and whose digest differs from the [md5] the cloud lists for it. *)
Theorem sync_directory_queues_the_changed_files (fs : node)
  (local_dir : list string) (remote_path : option string) (w : world C)
  (names : list string) :
  status (listing_reply C self remote_path w) = 200%Z ->
  Os.listdir fs local_dir = Some names ->
  upload_tasks (snd (sync_directory H C self fs local_dir remote_path w))
  = upload_tasks w
    ++ map (fun file =>
              (local_dir ++ [file], get_full_path self remote_path (Some file)))
         (List.filter
            (fun file =>
               validate_path file && Os.isfile fs (local_dir ++ [file])
               && py_ne (get_file_hash H fs (local_dir ++ [file]))
                    (dict_get
                       (cloud_files_of (items (listing_reply C self remote_path w)))
                       file))
            names).
Proof.
  intros Hstatus Hnames.
  destruct (sync_directory_world H C self fs local_dir remote_path w) as (c & Hrun).
  rewrite Hrun. unfold directory_diff. rewrite Hstatus, Hnames. reflexivity.
Qed.

(** X13. When the cloud does not answer the listing with [200],
    [sync_directory] stops after [create_folder] and [get_info]: it
    deletes nothing, queues nothing, and returns. *)
Theorem failed_listing_leaves_the_directory_alone (fs : node)
  (local_dir : list string) (remote_path : option string) (w : world C) :
  status (listing_reply C self remote_path w) <> 200%Z ->
  fst (sync_directory H C self fs local_dir remote_path w) = Returned tt
  /\ issued (sync_directory H C self fs local_dir remote_path) w
     = [CreateFolder remote_path; GetInfo (get_full_path self remote_path None)]
  /\ upload_tasks (snd (sync_directory H C self fs local_dir remote_path w))
     = upload_tasks w.
Proof.
  intros Hstatus. apply Z.eqb_neq in Hstatus.
  destruct (sync_directory_world H C self fs local_dir remote_path w) as (c & Hrun).
  rewrite (issued_advance _ _ _ _ _ _ Hrun), Hrun.
  unfold directory_diff. rewrite Hstatus. cbn. rewrite app_nil_r. auto.
Qed.

(** X14. [upload] raises in one case only: the cloud granted a link and
    the file cannot be read; what it raises is the error of [open]. *)
Theorem upload_raises_exactly_for_an_unreadable_file (fs : node)
  (file_path : list string) (remote_path : string) (w : world C) (e : exn) :
  fst (upload C self fs file_path remote_path w) = Raised e
  <-> e = OSError file_path
      /\ link_granted C remote_path w = true
      /\ Os.read_bytes fs file_path = None.
Proof.
  destruct (upload_world C self fs file_path remote_path w) as (b & c & Hrun & _).
  rewrite Hrun. cbn [fst].
  destruct (link_granted C remote_path w);
    [destruct (Os.read_bytes fs file_path) as [data |] |].
  - split; [discriminate | intros (_ & _ & Hnone); discriminate].
  - split; [intros [= <-]; auto | intros (-> & _); reflexivity].
  - split; [discriminate | intros (_ & Hlink & _); discriminate].
Qed.

(** X15. Without a link, [upload] returns [False] and sends no content:
    the one request the cloud has answered is the one for the link. *)
Theorem upload_without_a_link_sends_no_content (fs : node)
  (file_path : list string) (remote_path : string) (w : world C) :
  link_granted C remote_path w = false ->
  fst (upload C self fs file_path remote_path w) = Returned false
  /\ cloud (snd (upload C self fs file_path remote_path w))
     = snd (serve C (GetUploadLink (sanitize_path remote_path)) (cloud w))
  /\ issued (upload C self fs file_path remote_path) w = [Upload file_path remote_path].
Proof.
  intros Hlink.
  destruct (upload_world C self fs file_path remote_path w) as (b & c & Hrun & Hcloud).
  rewrite (issued_advance _ _ _ _ _ _ Hrun), Hrun, Hlink. cbn [fst snd advance cloud].
  rewrite (Hcloud (or_introl Hlink)). auto.
Qed.

(** X16. [create_folders_first] returns, and calls [create_folder] and
    nothing else: once for each directory of the walk whose sanitized
    relative path [validate_path] accepts, in the order of the walk. The
    root, whose relative path is a dot, is not among them. *)
Theorem create_folders_first_creates_the_eligible_directories (fs : node)
  (w : world C) :
  fst (create_folders_first C self fs w) = Returned tt
  /\ issued (create_folders_first C self fs) w
     = map (fun p => CreateFolder (Some p)) (eligible_directories fs)
  /\ upload_tasks (snd (create_folders_first C self fs w)) = upload_tasks w
  /\ ~ In "." (eligible_directories fs).
Proof.
  destruct (create_folders_first_world C self fs w) as (c & Hrun).
  rewrite (issued_advance _ _ _ _ _ _ Hrun), Hrun. cbn [fst snd advance upload_tasks].
  rewrite app_nil_r. repeat split.
  unfold eligible_directories. intros Hin. apply filter_In in Hin as [_ Hdot].
  discriminate.
Qed.

(** ** One pass *)

Lemma sync_folder_trace (fs : node) (w : world C) :
  exists ops queued,
    issued (sync_folder H C self fs) w
    = [CreateFolder None; GetInfo (get_full_path self None None)]
      ++ map (fun name => Delete (get_full_path self None (Some name)))
           (snd (directory_diff H C self fs [] None w))
      ++ ops
      ++ map (fun t => Upload (fst t) (snd t))
           (upload_tasks (snd (sync_folder H C self fs w)))
    /\ upload_tasks (snd (sync_folder H C self fs w))
       = map (upload_task self [] None) (fst (directory_diff H C self fs [] None w))
         ++ queued
    /\ (first_run w = true ->
        ops = map (fun p => CreateFolder (Some p)) (eligible_directories fs)
        /\ queued = [])
    /\ (first_run w = false ->
        created ops = map Some (eligible_directories fs)
        /\ listed ops
           = map (fun p => get_full_path self (Some p) None) (eligible_directories fs)
        /\ uploads ops = []).
Proof.
  destruct (sync_folder_world H C self fs w)
    as (outcome & c & ops & queued & Hrun & Hboot & Hincr & _).
  exists ops, queued. rewrite Hrun. cbn [snd upload_tasks].
  split; [| auto]. apply issued_of_trace. rewrite Hrun. cbn [snd trace].
  rewrite <- !app_assoc. reflexivity.
Qed.


(** X17. A pass, first or not, asks the cloud to create the root folder
    and then every eligible directory of the walk, in the order of the
    walk. *)
Theorem every_pass_creates_the_eligible_folders (fs : node) (w : world C) :
  created (issued (sync_folder H C self fs) w)
  = None :: map Some (eligible_directories fs).
Proof.
  destruct (sync_folder_trace fs w) as (ops & queued & Htrace & _ & Hboot & Hincr).
  rewrite Htrace, !created_app, created_of_deletes, created_of_uploads, app_nil_r.
  change (created [CreateFolder None; GetInfo (get_full_path self None None)])
    with [@None string].
  cbn [app]. f_equal. destruct (first_run w).
  - destruct (Hboot eq_refl) as [-> _]. apply created_of_creations.
  - destruct (Hincr eq_refl) as [Hc _]. exact Hc.
Qed.

(** X18. The first pass of the process looks at the root only: it lists
    the root folder and no other, and every upload it queues is for a
    file that lies directly in the local folder. *)
Theorem bootstrap_pass_reconciles_only_the_root (fs : node) (w : world C) :
  first_run w = true ->
  listed (issued (sync_folder H C self fs) w) = [get_full_path self None None]
  /\ forall file_path remote_path,
       In (file_path, remote_path) (upload_tasks (snd (sync_folder H C self fs w))) ->
       exists file,
         file_path = [file] /\ remote_path = get_full_path self None (Some file)
         /\ validate_path file = true /\ Os.isfile fs [file] = true.
Proof.
  intros Hflag.
  destruct (sync_folder_trace fs w) as (ops & queued & Htrace & Hqueue & Hboot & _).
  destruct (Hboot Hflag) as [-> ->]. split.
  - rewrite Htrace, !listed_app, listed_of_deletes, listed_of_creations, listed_of_uploads.
    reflexivity.
  - intros fp rp Hin. rewrite Hqueue, app_nil_r in Hin.
    apply in_map_iff in Hin as (file & [= <- <-] & Hfile).
    exists file. split; [reflexivity | split; [reflexivity |]].
    unfold directory_diff in Hfile.
    destruct (status _ =? 200)%Z; [| destruct Hfile].
    destruct (Os.listdir fs []) as [names |]; [| destruct Hfile].
    apply filter_In in Hfile as [_ Hcond].
    apply andb_true_iff in Hcond as [Hcond _].
    apply andb_true_iff in Hcond as [Hvalid Hisfile]. auto.
Qed.

(** X19. A later pass lists the root folder and the folder of every
    eligible directory of the walk, each once. *)
Theorem incremental_pass_lists_every_eligible_directory (fs : node) (w : world C) :
  first_run w = false ->
  listed (issued (sync_folder H C self fs) w)
  ≡ₚ get_full_path self None None
     :: map (fun p => get_full_path self (Some p) None) (eligible_directories fs).
Proof.
  intros Hflag.
  destruct (sync_folder_trace fs w) as (ops & queued & Htrace & _ & _ & Hincr).
  destruct (Hincr Hflag) as (_ & Hl & _).
  rewrite Htrace, !listed_app, listed_of_deletes, listed_of_uploads, Hl, app_nil_r.
  reflexivity.
Qed.

(** X20. A pass makes the uploads that its [sync_directory] calls queued,
    each once and in the order of the queue, and no other upload. *)
Theorem pass_makes_the_queued_uploads (fs : node) (w : world C) :
  uploads (issued (sync_folder H C self fs) w)
  = upload_tasks (snd (sync_folder H C self fs w)).
Proof.
  destruct (sync_folder_trace fs w) as (ops & queued & Htrace & _ & Hboot & Hincr).
  rewrite Htrace, !uploads_app, uploads_of_deletes, uploads_of_uploads.
  change (uploads [CreateFolder None; GetInfo (get_full_path self None None)])
    with (@nil (list string * string)).
  cbn [app].
  replace (uploads ops) with (@nil (list string * string)); [reflexivity |].
  destruct (first_run w).
  - destruct (Hboot eq_refl) as [-> _]. symmetry. apply uploads_of_creations.
  - destruct (Hincr eq_refl) as (_ & _ & Hu). symmetry. exact Hu.
Qed.

(** X21. Provided every listing of a local directory that the pass
    makes succeeds (the local folder and the directories of the walk),
    the one exception that leaves a pass is the error of opening a queued
    file that cannot be read; the first-run flag is then left as it
    was. *)
Theorem pass_raises_only_for_an_unreadable_queued_file (fs : node) (w : world C)
  (e : exn) :
  (forall root, root = [] \/ walked fs root -> Os.listdir fs root <> None) ->
  fst (sync_folder H C self fs w) = Raised e ->
  (exists file_path remote_path,
     e = OSError file_path
     /\ In (file_path, remote_path) (upload_tasks (snd (sync_folder H C self fs w)))
     /\ Os.read_bytes fs file_path = None)
  /\ first_run (snd (sync_folder H C self fs w)) = first_run w.
Proof.
  intros _.
  destruct (sync_folder_world H C self fs w)
    as (outcome & c & ops & queued & Hrun & _ & _ & Hout).
  rewrite Hrun. cbn [fst snd upload_tasks first_run]. intros ->.
  destruct Hout as [Hout | (fp & rp & Hin & Hnone & [= ->])]; [discriminate |].
  split; [| reflexivity]. exists fp, rp. auto.
Qed.

End Reconciliation.


(** The same cloud and the same local folder in the two kinds of pass:
    the stale file of the folder [b] is deleted by a later pass, and not
    by the first. *)
Example delete_below_the_root_waits_for_a_later_pass :
  deletes (issued (sync_folder Md5.lib (Disk.api Md5.lib) Example.api
                     (Dir [("b", Dir [])]))
             (Example.fresh (Disk.api Md5.lib) Example.nested_disk))
  = []
  /\ deletes (issued (sync_folder Md5.lib (Disk.api Md5.lib) Example.api
                        (Dir [("b", Dir [])]))
                (Example.seasoned (Disk.api Md5.lib) Example.nested_disk))
     = ["backup/b/old2.txt"].
Proof. split; vm_compute; reflexivity. Qed.

Lemma sync_directory_returns_whatever_the_cloud_answers_witness :
  let fs := Dir [("keep.txt", File (Some [x61]))] in
  let C := Disk.api Md5.lib in
  let w := Example.seasoned C Example.mixed_disk in
  fst (sync_directory Md5.lib C Example.api fs [] None w) = Returned tt
  /\ first_run (snd (sync_directory Md5.lib C Example.api fs [] None w)) = first_run w
  /\ issued (sync_directory Md5.lib C Example.api fs [] None) w
     = CreateFolder None
       :: GetInfo (get_full_path Example.api None None)
       :: map (fun name => Delete (get_full_path Example.api None (Some name)))
            (if (status (listing_reply C Example.api None w) =? 200)%Z
             then elements
                    (files_to_delete
                       (cloud_files_of (items (listing_reply C Example.api None w)))
                       ["keep.txt"])
             else []).
Proof.
  refine (sync_directory_returns_whatever_the_cloud_answers Md5.lib (Disk.api Md5.lib)
            Example.api (Dir [("keep.txt", File (Some [x61]))]) [] None
            (Example.seasoned (Disk.api Md5.lib) Example.mixed_disk) ["keep.txt"] _).
  reflexivity.
Defined.

Lemma sync_directory_queues_the_changed_files_witness :
  let fs := Dir [("a.txt", File (Some [x61])); ("new.txt", File (Some [x62]));
                 (".env", File (Some [x63])); ("sub", Dir [])] in
  let C := Disk.api Md5.lib in
  let w := Example.seasoned C Example.a_txt_disk in
  upload_tasks (snd (sync_directory Md5.lib C Example.api fs [] None w))
  = upload_tasks w
    ++ map (fun file => ([] ++ [file], get_full_path Example.api None (Some file)))
         (List.filter
            (fun file =>
               validate_path file && Os.isfile fs ([] ++ [file])
               && py_ne (get_file_hash Md5.lib fs ([] ++ [file]))
                    (dict_get
                       (cloud_files_of (items (listing_reply C Example.api None w)))
                       file))
            ["a.txt"; "new.txt"; ".env"; "sub"]).
Proof.
  refine (sync_directory_queues_the_changed_files Md5.lib (Disk.api Md5.lib)
            Example.api
            (Dir [("a.txt", File (Some [x61])); ("new.txt", File (Some [x62]));
                  (".env", File (Some [x63])); ("sub", Dir [])]) [] None
            (Example.seasoned (Disk.api Md5.lib) Example.a_txt_disk)
            ["a.txt"; "new.txt"; ".env"; "sub"] _ _).
  - vm_compute. reflexivity.
  - reflexivity.
Defined.

(** Of a synchronised file, a new file, a hidden file and a directory,
    the new file is the one queued. *)
Example new_file_is_the_one_queued :
  upload_tasks
    (snd (sync_directory Md5.lib (Disk.api Md5.lib) Example.api
            (Dir [("a.txt", File (Some [x61])); ("new.txt", File (Some [x62]));
                  (".env", File (Some [x63])); ("sub", Dir [])]) [] None
            (Example.seasoned (Disk.api Md5.lib) Example.a_txt_disk)))
  = [(["new.txt"], "backup/new.txt")].
Proof. vm_compute. reflexivity. Qed.

Lemma eqb_same (s : string) : PyStr.eqb s s = true.
Proof. apply String.eqb_refl. Qed.

(** X12. A file whose content has the MD5 digest that the cloud lists
    for its name is not queued: no upload that [sync_directory] adds to
    the queue is for it. *)
Theorem file_with_the_listed_digest_is_not_queued (C : cloud_api)
  (self : YandexDiskAPI) (fs : node) (local_dir : list string)
  (remote_path : option string) (w : world C) (file : string) (data : list byte) :
  Os.read_bytes fs (local_dir ++ [file]) = Some data ->
  dict_get (cloud_files_of (items (listing_reply C self remote_path w))) file
  = Some (Md5.hexdigest data) ->
  Forall (fun t => fst t <> local_dir ++ [file])
    (enqueued (sync_directory Md5.lib C self fs local_dir remote_path) w).
Proof.
  intros Hread Hcloud.
  destruct (sync_directory_world Md5.lib C self fs local_dir remote_path w) as (c & Hrun).
  unfold enqueued. rewrite Hrun. cbn [snd advance upload_tasks]. rewrite drop_app_length.
  apply List.Forall_forall. intros t Hin Hfor.
  apply in_map_iff in Hin as (name & <- & Hname). cbn [upload_task fst] in Hfor.
  apply app_inv_head in Hfor. injection Hfor as ->.
  unfold directory_diff in Hname.
  destruct (status _ =? 200)%Z; [| destruct Hname].
  destruct (Os.listdir fs local_dir) as [names |]; [| destruct Hname].
  apply filter_In in Hname as [_ Hcond]. apply andb_true_iff in Hcond as [_ Hne].
  unfold get_file_hash in Hne. rewrite Hread, Hcloud, md5_of_is_hexdigest in Hne.
  cbn [py_ne] in Hne. rewrite eqb_same in Hne. discriminate.
Qed.

Lemma file_with_the_listed_digest_is_not_queued_witness :
  let fs := Dir [("a.txt", File (Some [x61])); ("new.txt", File (Some [x62]))] in
  let C := Disk.api Md5.lib in
  let w := Example.seasoned C Example.a_txt_disk in
  Forall (fun t => fst t <> [] ++ ["a.txt"])
    (enqueued (sync_directory Md5.lib C Example.api fs [] None) w).
Proof.
  refine (file_with_the_listed_digest_is_not_queued (Disk.api Md5.lib) Example.api
            (Dir [("a.txt", File (Some [x61])); ("new.txt", File (Some [x62]))]) [] None
            (Example.seasoned (Disk.api Md5.lib) Example.a_txt_disk)
            "a.txt" [x61] _ _).
  - reflexivity.
  - vm_compute. reflexivity.
Defined.

Lemma failed_listing_leaves_the_directory_alone_witness :
  let fs := Dir [("a.txt", File (Some [x61]))] in
  let C := Example.always (Response 404 [] None) in
  let w := Example.fresh C tt in
  fst (sync_directory Md5.lib C Example.api fs [] None w) = Returned tt
  /\ issued (sync_directory Md5.lib C Example.api fs [] None) w
     = [CreateFolder None; GetInfo (get_full_path Example.api None None)]
  /\ upload_tasks (snd (sync_directory Md5.lib C Example.api fs [] None w))
     = upload_tasks w.
Proof.
  refine (failed_listing_leaves_the_directory_alone Md5.lib
            (Example.always (Response 404 [] None)) Example.api
            (Dir [("a.txt", File (Some [x61]))]) [] None
            (Example.fresh (Example.always (Response 404 [] None)) tt) _).
  cbn. lia.
Defined.

Lemma upload_without_a_link_sends_no_content_witness :
  let fs := Dir [("a.txt", File (Some [x61]))] in
  let C := Example.always (Response 403 [] None) in
  let w := Example.fresh C tt in
  fst (upload C Example.api fs ["a.txt"] "backup/a.txt" w) = Returned false
  /\ cloud (snd (upload C Example.api fs ["a.txt"] "backup/a.txt" w))
     = snd (serve C (GetUploadLink (sanitize_path "backup/a.txt")) (cloud w))
  /\ issued (upload C Example.api fs ["a.txt"] "backup/a.txt") w
     = [Upload ["a.txt"] "backup/a.txt"].
Proof.
  refine (upload_without_a_link_sends_no_content
            (Example.always (Response 403 [] None)) Example.api
            (Dir [("a.txt", File (Some [x61]))]) ["a.txt"] "backup/a.txt"
            (Example.fresh (Example.always (Response 403 [] None)) tt) _).
  reflexivity.
Defined.

Lemma bootstrap_pass_reconciles_only_the_root_witness :
  let C := Disk.api Md5.lib in
  let w := Example.fresh C Disk.empty in
  listed (issued (sync_folder Md5.lib C Example.api Scenario.tree) w)
  = [get_full_path Example.api None None]
  /\ forall file_path remote_path,
       In (file_path, remote_path)
         (upload_tasks (snd (sync_folder Md5.lib C Example.api Scenario.tree w))) ->
       exists file,
         file_path = [file] /\ remote_path = get_full_path Example.api None (Some file)
         /\ validate_path file = true /\ Os.isfile Scenario.tree [file] = true.
Proof.
  refine (bootstrap_pass_reconciles_only_the_root Md5.lib (Disk.api Md5.lib)
            Example.api Scenario.tree (Example.fresh (Disk.api Md5.lib) Disk.empty) _).
  reflexivity.
Defined.

Lemma incremental_pass_lists_every_eligible_directory_witness :
  let C := Disk.api Md5.lib in
  let w := Example.seasoned C Disk.empty in
  listed (issued (sync_folder Md5.lib C Example.api Scenario.tree) w)
  ≡ₚ get_full_path Example.api None None
     :: map (fun p => get_full_path Example.api (Some p) None)
          (eligible_directories Scenario.tree).
Proof.
  refine (incremental_pass_lists_every_eligible_directory Md5.lib (Disk.api Md5.lib)
            Example.api Scenario.tree (Example.seasoned (Disk.api Md5.lib) Disk.empty) _).
  reflexivity.
Defined.

Lemma pass_raises_only_for_an_unreadable_queued_file_witness :
  let fs := Dir [("a.txt", File None); ("b", Dir [])] in
  let C := Disk.api Md5.lib in
  let w := Example.fresh C Example.a_txt_disk in
  (exists file_path remote_path,
     OSError ["a.txt"] = OSError file_path
     /\ In (file_path, remote_path)
          (upload_tasks (snd (sync_folder Md5.lib C Example.api fs w)))
     /\ Os.read_bytes fs file_path = None)
  /\ first_run (snd (sync_folder Md5.lib C Example.api fs w)) = first_run w.
Proof.
  refine (pass_raises_only_for_an_unreadable_queued_file Md5.lib (Disk.api Md5.lib)
            Example.api (Dir [("a.txt", File None); ("b", Dir [])])
            (Example.fresh (Disk.api Md5.lib) Example.a_txt_disk)
            (OSError ["a.txt"]) _ _).
  - intros root [-> | (dirs & files & [[= <- _ _] | [[= <- _ _] | []]])]; discriminate.
  - vm_compute. reflexivity.
Defined.

(** ** The service loop *)

(** X22. The loop of [main] runs one pass of [sync_folder] for each cycle
    that finds the local folder, each on a new instance built from the
    same token and folder with the default limit, and does nothing in the
    cycles that do not find it: such a cycle calls nothing and leaves the
    first-run flag alone. *)
Theorem main_runs_a_pass_for_each_cycle_that_finds_the_folder (H : hashlib)
  (C : cloud_api) (YANDEX_TOKEN YANDEX_FOLDER : string) (cycles : list (option node))
  (w : world C) :
  main H C YANDEX_TOKEN YANDEX_FOLDER cycles w
  = sync_folder_calls H C
      (map (fun fs => (init YANDEX_TOKEN YANDEX_FOLDER 55, fs)) (omap id cycles)) w.
Proof.
  revert w. induction cycles as [| [fs |] cycles IH]; intros w; [reflexivity | |].
  - change (omap id (Some fs :: cycles)) with (fs :: omap id cycles).
    cbn [main map sync_folder_calls]. unfold bind, sync_files.
    destruct (sync_folder H C _ fs w) as [[u | e] w']; [apply IH | reflexivity].
  - change (omap id (None :: cycles)) with (omap id cycles).
    cbn [main]. unfold bind at 1. cbn [sync_files ret]. apply IH.
Qed.

(** ** The semaphore *)

Section Permits.

Import Asyncio.

(** X24. Once every coroutine of a gathered pass has run to its end, the
    semaphore is back at [max_concurrent_requests]: no [upload] and no
    [delete] keeps a permit. *)
Theorem semaphore_is_restored_when_every_coroutine_is_done (self : YandexDiskAPI)
  (directories : list (bool * list bool * nat)) (schedule : list nat) (l : loop) :
  run schedule (gather_sync_tasks self directories) = Some l ->
  Forall (fun t => t = []) (tasks l) ->
  semaphore l = max_concurrent_requests self.
Proof.
  intros Hrun Hdone.
  destruct (run_balanced _ _ _ _ (gather_sync_tasks_balanced self directories) Hrun)
    as [_ Hsem].
  assert (Hnone : holders l = 0); [| lia].
  unfold holders. induction Hdone as [| t pool -> _ IH]; [reflexivity | exact IH].
Qed.

Lemma semaphore_is_restored_when_every_coroutine_is_done_witness :
  exists l,
    run (repeat 0 9 ++ repeat 1 6) (gather_sync_tasks Example.api [(true, [true], 1)])
    = Some l
    /\ semaphore l = max_concurrent_requests Example.api.
Proof.
  eexists. split; [vm_compute; reflexivity |].
  refine (semaphore_is_restored_when_every_coroutine_is_done Example.api
            [(true, [true], 1)] (repeat 0 9 ++ repeat 1 6) _ _ _).
  - vm_compute. reflexivity.
  - vm_compute. repeat constructor.
Defined.

Lemma transfers_stay_under_the_limit_witness :
  exists l,
    run [0; 0; 0; 0; 0; 0; 1; 1; 0] (gather_sync_tasks Example.api [(true, [true], 1)])
    = Some l
    /\ transfers_in_flight l = 2
    /\ transfers_in_flight l <= max_concurrent_requests Example.api.
Proof.
  eexists. split; [vm_compute; reflexivity | split; [vm_compute; reflexivity |]].
  refine (transfers_stay_under_the_limit Example.api [(true, [true], 1)]
            [0; 0; 0; 0; 0; 0; 1; 1; 0] _ _).
  vm_compute. reflexivity.
Defined.

End Permits.

Lemma sanitize_path_idempotent_without_backslash_witness :
  sanitize_path (sanitize_path "a//b/../c/") = sanitize_path "a//b/../c/".
Proof.
  refine (sanitize_path_idempotent_without_backslash "a//b/../c/" _).
  reflexivity.
Defined.
